(** * Request descriptors of the Telegram bot API client (configs.go)

    A shallow embedding of the file references, the parameter map and the
    media-attachment resolver of [configs.go], with the properties the
    specification states about them. *)

From Stdlib Require Import ZArith Ascii.
From stdpp Require Import base strings list gmap pretty.

Local Open Scope string_scope.
Local Open Scope list_scope.

(** ** Go runtime: panics, errors, formatting, range loops, the file system *)

(** A Go call either returns a value or panics with a message. *)
Inductive outcome (A : Type) : Type :=
  | Returns (a : A)
  | Panics (msg : string).
Arguments Returns {A} a.
Arguments Panics {A} msg.

Definition panicked {A : Type} (o : outcome A) : bool :=
  match o with
  | Returns _ => false
  | Panics _ => true
  end.

(** The recoverable error kinds of the core. [PathError] is what [os.Open]
    returns (the IOError of the specification). *)
Inductive error : Type :=
  | PathError (op path : string)
  | InvalidIdentifier
  | EncodingFailed (msg : string).

(** [fmt.Sprintf("%d", idx)] and [strconv.Itoa]: the decimal form of an
    integer, with a leading minus sign for negative numbers. *)
Definition Itoa (i : Z) : string := pretty i.

(** [for idx, x := range xs { s = body(idx, x, s) }], started at [idx]. *)
Fixpoint for_range {A S : Type} (body : Z → A → S → S)
    (idx : Z) (xs : list A) (s : S) : S :=
  match xs with
  | [] => s
  | x :: xs' => for_range body (idx + 1) xs' (body idx x s)
  end.

(** An [io.Reader]: an in-memory reader ([bytes.NewReader]) or an opened
    file ([*os.File], which remembers the name it was opened with). *)
Inductive io_Reader : Type :=
  | bytes_NewReader (b : list Byte.byte)
  | os_File (name : string) (content : list Byte.byte).

Definition File_Name (r : io_Reader) : string :=
  match r with
  | os_File name _ => name
  | bytes_NewReader _ => ""
  end.

(** The operating system as far as [os.Open] sees it: the paths that can be
    opened, with their content, and the log of the paths opened so far. *)
Record OS : Type := mkOS {
  os_files : gmap string (list Byte.byte);
  os_opened : list string
}.

Definition os_Open (name : string) (w : OS) : (io_Reader + error) * OS :=
  let w' := mkOS (os_files w) (os_opened w ++ [name]) in
  match os_files w !! name with
  | Some content => (inl (os_File name content), w')
  | None => (inr (PathError "open" name), w')
  end.

(** ** File references (RequestFileData and its six implementations) *)

Record FileBytes : Type := mkFileBytes {
  FileBytes_Name : string;
  FileBytes_Bytes : list Byte.byte
}.

Record FileReader : Type := mkFileReader {
  FileReader_Name : string;
  FileReader_Reader : io_Reader
}.

Definition FilePath : Type := string.
Definition FileURL : Type := string.
Definition FileID : Type := string.
Definition fileAttach : Type := string.

(** What [UploadData] returns: [(string, io.Reader, error)], where the
    reader and the error may be nil. *)
Definition upload : Type := string * option io_Reader * option error.

Definition FileBytes_NeedsUpload (fb : FileBytes) : bool := true.
Definition FileBytes_UploadData (fb : FileBytes) (w : OS) : outcome upload * OS :=
  (Returns (FileBytes_Name fb, Some (bytes_NewReader (FileBytes_Bytes fb)), None), w).
Definition FileBytes_SendData (fb : FileBytes) : outcome string :=
  Panics "FileBytes must be uploaded".

Definition FileReader_NeedsUpload (fr : FileReader) : bool := true.
Definition FileReader_UploadData (fr : FileReader) (w : OS) : outcome upload * OS :=
  (Returns (FileReader_Name fr, Some (FileReader_Reader fr), None), w).
Definition FileReader_SendData (fr : FileReader) : outcome string :=
  Panics "FileReader must be uploaded".

Definition FilePath_NeedsUpload (fp : FilePath) : bool := true.
Definition FilePath_UploadData (fp : FilePath) (w : OS) : outcome upload * OS :=
  match os_Open fp w with
  | (inr err, w') => (Returns ("", None, Some err), w')
  | (inl fileHandle, w') =>
      let name := File_Name fileHandle in
      (Returns (name, Some fileHandle, None), w')
  end.
Definition FilePath_SendData (fp : FilePath) : outcome string :=
  Panics "FilePath must be uploaded".

Definition FileURL_NeedsUpload (fu : FileURL) : bool := false.
Definition FileURL_UploadData (fu : FileURL) (w : OS) : outcome upload * OS :=
  (Panics "FileURL cannot be uploaded", w).
Definition FileURL_SendData (fu : FileURL) : outcome string := Returns fu.

Definition FileID_NeedsUpload (fi : FileID) : bool := false.
Definition FileID_UploadData (fi : FileID) (w : OS) : outcome upload * OS :=
  (Panics "FileID cannot be uploaded", w).
Definition FileID_SendData (fi : FileID) : outcome string := Returns fi.

Definition fileAttach_NeedsUpload (fa : fileAttach) : bool := false.
Definition fileAttach_UploadData (fa : fileAttach) (w : OS) : outcome upload * OS :=
  (Panics "fileAttach cannot be uploaded", w).
Definition fileAttach_SendData (fa : fileAttach) : outcome string := Returns fa.

(** A value of interface type [RequestFileData]: one of the six
    implementations, tagged with its dynamic type. *)
Inductive RequestFileData : Type :=
  | IsFileBytes (fb : FileBytes)
  | IsFileReader (fr : FileReader)
  | IsFilePath (fp : FilePath)
  | IsFileURL (fu : FileURL)
  | IsFileID (fi : FileID)
  | IsfileAttach (fa : fileAttach).

(** Interface method dispatch. *)
Definition NeedsUpload (d : RequestFileData) : bool :=
  match d with
  | IsFileBytes fb => FileBytes_NeedsUpload fb
  | IsFileReader fr => FileReader_NeedsUpload fr
  | IsFilePath fp => FilePath_NeedsUpload fp
  | IsFileURL fu => FileURL_NeedsUpload fu
  | IsFileID fi => FileID_NeedsUpload fi
  | IsfileAttach fa => fileAttach_NeedsUpload fa
  end.

Definition UploadData (d : RequestFileData) (w : OS) : outcome upload * OS :=
  match d with
  | IsFileBytes fb => FileBytes_UploadData fb w
  | IsFileReader fr => FileReader_UploadData fr w
  | IsFilePath fp => FilePath_UploadData fp w
  | IsFileURL fu => FileURL_UploadData fu w
  | IsFileID fi => FileID_UploadData fi w
  | IsfileAttach fa => fileAttach_UploadData fa w
  end.

Definition SendData (d : RequestFileData) : outcome string :=
  match d with
  | IsFileBytes fb => FileBytes_SendData fb
  | IsFileReader fr => FileReader_SendData fr
  | IsFilePath fp => FilePath_SendData fp
  | IsFileURL fu => FileURL_SendData fu
  | IsFileID fi => FileID_SendData fi
  | IsfileAttach fa => fileAttach_SendData fa
  end.

(** The string a reference that is sent (not uploaded) was built from. *)
Definition raw_string (d : RequestFileData) : option string :=
  match d with
  | IsFileURL fu => Some fu
  | IsFileID fi => Some fi
  | IsfileAttach fa => Some fa
  | _ => None
  end.

(** RequestFile: a file associated with a field name. *)
Record RequestFile : Type := mkRequestFile {
  RequestFile_Name : string;
  RequestFile_Data : RequestFileData
}.

(** ** Media items *)

(** Modelled from the spec: the struct declarations of the media items,
    which [configs.go] uses but does not declare. Each item holds a primary
    file reference [Media]; the variants other than Photo hold an optional
    secondary reference [Thumb] (nil when absent); the other fields are
    variant-specific metadata. [Media] is always set: the resolver calls
    [NeedsUpload] on it without a nil test. *)
Record BaseInputMedia : Type := mkBaseInputMedia {
  Type_ : string;
  Media : RequestFileData;
  Caption : string;
  ParseMode : string
}.

(** Modelled from the spec: a photo, which has no thumbnail. *)
Record InputMediaPhoto : Type := mkInputMediaPhoto {
  Photo_Base : BaseInputMedia
}.

(** Modelled from the spec: a video. *)
Record InputMediaVideo : Type := mkInputMediaVideo {
  Video_Base : BaseInputMedia;
  Video_Thumb : option RequestFileData;
  Video_Width : Z;
  Video_Height : Z;
  Video_Duration : Z;
  Video_SupportsStreaming : bool
}.

(** Modelled from the spec: an audio file. *)
Record InputMediaAudio : Type := mkInputMediaAudio {
  Audio_Base : BaseInputMedia;
  Audio_Thumb : option RequestFileData;
  Audio_Duration : Z;
  Audio_Performer : string;
  Audio_Title : string
}.

(** Modelled from the spec: a general file. *)
Record InputMediaDocument : Type := mkInputMediaDocument {
  Document_Base : BaseInputMedia;
  Document_Thumb : option RequestFileData;
  Document_DisableContentTypeDetection : bool
}.

(** Field assignments [m.Media = d] and [m.Thumb = d] on a copy of [m]. *)
Definition Base_set_Media (d : RequestFileData) (b : BaseInputMedia) : BaseInputMedia :=
  mkBaseInputMedia (Type_ b) d (Caption b) (ParseMode b).

Definition Photo_set_Media (d : RequestFileData) (m : InputMediaPhoto) : InputMediaPhoto :=
  mkInputMediaPhoto (Base_set_Media d (Photo_Base m)).

Definition Video_set_Media (d : RequestFileData) (m : InputMediaVideo) : InputMediaVideo :=
  mkInputMediaVideo (Base_set_Media d (Video_Base m)) (Video_Thumb m)
    (Video_Width m) (Video_Height m) (Video_Duration m) (Video_SupportsStreaming m).

Definition Video_set_Thumb (t : option RequestFileData) (m : InputMediaVideo) : InputMediaVideo :=
  mkInputMediaVideo (Video_Base m) t
    (Video_Width m) (Video_Height m) (Video_Duration m) (Video_SupportsStreaming m).

Definition Audio_set_Media (d : RequestFileData) (m : InputMediaAudio) : InputMediaAudio :=
  mkInputMediaAudio (Base_set_Media d (Audio_Base m)) (Audio_Thumb m)
    (Audio_Duration m) (Audio_Performer m) (Audio_Title m).

Definition Audio_set_Thumb (t : option RequestFileData) (m : InputMediaAudio) : InputMediaAudio :=
  mkInputMediaAudio (Audio_Base m) t
    (Audio_Duration m) (Audio_Performer m) (Audio_Title m).

Definition Document_set_Media (d : RequestFileData) (m : InputMediaDocument) : InputMediaDocument :=
  mkInputMediaDocument (Base_set_Media d (Document_Base m)) (Document_Thumb m)
    (Document_DisableContentTypeDetection m).

Definition Document_set_Thumb (t : option RequestFileData) (m : InputMediaDocument) : InputMediaDocument :=
  mkInputMediaDocument (Document_Base m) t
    (Document_DisableContentTypeDetection m).

(** The four media item variants. *)
Inductive MediaItem : Type :=
  | Photo (m : InputMediaPhoto)
  | Video (m : InputMediaVideo)
  | Audio (m : InputMediaAudio)
  | Document (m : InputMediaDocument).

(** A value of type [interface{}] as the resolver receives it: a media item
    held by value, or any other value (nil, a pointer, another type), which
    the type switches do not match. *)
Inductive interface : Type :=
  | Item (m : MediaItem)
  | Other (description : string).

(** [m.Thumb != nil && m.Thumb.NeedsUpload()] *)
Definition Thumb_NeedsUpload (t : option RequestFileData) : bool :=
  match t with
  | Some d => NeedsUpload d
  | None => false
  end.

(** ** The media attachment resolver *)

Definition prepareInputMediaParam (inputMedia : interface) (idx : Z) : option interface :=
  match inputMedia with
  | Item (Photo m) =>
      let m := if NeedsUpload (Media (Photo_Base m))
               then Photo_set_Media (IsfileAttach ("attach://file-" +:+ Itoa idx)) m
               else m in
      Some (Item (Photo m))
  | Item (Video m) =>
      let m := if NeedsUpload (Media (Video_Base m))
               then Video_set_Media (IsfileAttach ("attach://file-" +:+ Itoa idx)) m
               else m in
      let m := if Thumb_NeedsUpload (Video_Thumb m)
               then Video_set_Thumb (Some (IsfileAttach ("attach://file-" +:+ Itoa idx +:+ "-thumb"))) m
               else m in
      Some (Item (Video m))
  | Item (Audio m) =>
      let m := if NeedsUpload (Media (Audio_Base m))
               then Audio_set_Media (IsfileAttach ("attach://file-" +:+ Itoa idx)) m
               else m in
      let m := if Thumb_NeedsUpload (Audio_Thumb m)
               then Audio_set_Thumb (Some (IsfileAttach ("attach://file-" +:+ Itoa idx +:+ "-thumb"))) m
               else m in
      Some (Item (Audio m))
  | Item (Document m) =>
      let m := if NeedsUpload (Media (Document_Base m))
               then Document_set_Media (IsfileAttach ("attach://file-" +:+ Itoa idx)) m
               else m in
      let m := if Thumb_NeedsUpload (Document_Thumb m)
               then Document_set_Thumb (Some (IsfileAttach ("attach://file-" +:+ Itoa idx +:+ "-thumb"))) m
               else m in
      Some (Item (Document m))
  | Other _ => None
  end.

Definition prepareInputMediaFile (inputMedia : interface) (idx : Z) : list RequestFile :=
  let files := [] in
  match inputMedia with
  | Item (Photo m) =>
      let files := if NeedsUpload (Media (Photo_Base m))
                   then files ++ [mkRequestFile ("file-" +:+ Itoa idx) (Media (Photo_Base m))]
                   else files in
      files
  | Item (Video m) =>
      let files := if NeedsUpload (Media (Video_Base m))
                   then files ++ [mkRequestFile ("file-" +:+ Itoa idx) (Media (Video_Base m))]
                   else files in
      let files := match Video_Thumb m with
                   | Some thumb =>
                       if NeedsUpload thumb
                       then files ++ [mkRequestFile ("file-" +:+ Itoa idx) thumb]
                       else files
                   | None => files
                   end in
      files
  | Item (Document m) =>
      let files := if NeedsUpload (Media (Document_Base m))
                   then files ++ [mkRequestFile ("file-" +:+ Itoa idx) (Media (Document_Base m))]
                   else files in
      let files := match Document_Thumb m with
                   | Some thumb =>
                       if NeedsUpload thumb
                       then files ++ [mkRequestFile ("file-" +:+ Itoa idx) thumb]
                       else files
                   | None => files
                   end in
      files
  | Item (Audio m) =>
      let files := if NeedsUpload (Media (Audio_Base m))
                   then files ++ [mkRequestFile ("file-" +:+ Itoa idx) (Media (Audio_Base m))]
                   else files in
      let files := match Audio_Thumb m with
                   | Some thumb =>
                       if NeedsUpload thumb
                       then files ++ [mkRequestFile ("file-" +:+ Itoa idx) thumb]
                       else files
                   | None => files
                   end in
      files
  | Other _ => files
  end.

(** [newMedia] starts as a copy of [inputMedia]; the loop overwrites
    [newMedia[idx]] whenever [prepareInputMediaParam] returns a value. *)
Definition prepareInputMediaForParams (inputMedia : list interface) : list interface :=
  let newMedia := inputMedia in
  for_range (λ idx media newMedia,
      match prepareInputMediaParam media idx with
      | Some param => <[Z.to_nat idx := param]> newMedia
      | None => newMedia
      end)
    0%Z inputMedia newMedia.

(** [prepareInputMediaFile] never returns a nil slice, so every iteration
    appends its result. *)
Definition prepareInputMediaForFiles (inputMedia : list interface) : list RequestFile :=
  let files := [] in
  for_range (λ idx media files, files ++ prepareInputMediaFile media idx)
    0%Z inputMedia files.

(** The two halves of an attachment plan, computed from the same input. *)
Definition resolve (inputMedia : list interface) : list interface * list RequestFile :=
  (prepareInputMediaForParams inputMedia, prepareInputMediaForFiles inputMedia).

(** ** The parameter map *)

(** [Params] is a Go [map[string]string]. *)
Abbreviation Params := (gmap string string).

(** Modelled from the spec: [AddNonZero] of params.go, which [configs.go]
    calls but does not define. It writes the decimal string of the number
    iff the number is not zero. *)
Definition AddNonZero (key : string) (value : Z) (p : Params) : Params :=
  if decide (value = 0%Z) then p else <[key := Itoa value]> p.

(** Modelled from the spec: [AddNonZero64] of params.go, the same setter
    for an [int64]. *)
Definition AddNonZero64 (key : string) (value : Z) (p : Params) : Params :=
  if decide (value = 0%Z) then p else <[key := Itoa value]> p.

(** Modelled from the spec: [AddBool] of params.go. It writes the literal
    of the value iff the value is true. *)
Definition AddBool (key : string) (value : bool) (p : Params) : Params :=
  if value then <[key := "true"]> p else p.

(** Modelled from the spec: a candidate of [AddFirstValid], a numeric id or
    a textual handle. *)
Inductive candidate : Type :=
  | NumericID (n : Z)
  | Handle (s : string).

(** Modelled from the spec: [AddFirstValid] of params.go. It tries the
    candidates from left to right, writes the first that is not the zero
    value of its type, and fails when there is none. *)
Fixpoint AddFirstValid (key : string) (args : list candidate) (p : Params)
    : Params * option error :=
  match args with
  | [] => (p, Some InvalidIdentifier)
  | NumericID n :: rest =>
      if decide (n = 0%Z) then AddFirstValid key rest p
      else (<[key := Itoa n]> p, None)
  | Handle s :: rest =>
      if decide (s = "") then AddFirstValid key rest p
      else (<[key := s]> p, None)
  end.

(** Modelled from the spec: [AddInterface] of params.go. It writes the JSON
    encoding of the value iff the value is not nil, and returns the error
    of the encoder when the value cannot be encoded. [marshal] is the
    encoder ([json.Marshal]) at the type of the value. *)
Definition AddInterface {A : Type} (marshal : A → string + error)
    (key : string) (value : option A) (p : Params) : Params * option error :=
  match value with
  | None => (p, None)
  | Some v =>
      match marshal v with
      | inl b => (<[key := b]> p, None)
      | inr err => (p, Some err)
      end
  end.

(** ** Request descriptors *)

Record SetGameScoreConfig : Type := mkSetGameScoreConfig {
  SetGameScore_UserID : Z;
  SetGameScore_Score : Z;
  SetGameScore_Force : bool;
  SetGameScore_DisableEditMessage : bool;
  SetGameScore_ChatID : Z;
  SetGameScore_ChannelUsername : string;
  SetGameScore_MessageID : Z;
  SetGameScore_InlineMessageID : string
}.

(** The result of [AddFirstValid] is discarded here, as in the source. *)
Definition SetGameScoreConfig_Params (config : SetGameScoreConfig)
    : Params * option error :=
  let params : Params := ∅ in
  let params := AddNonZero64 "user_id" (SetGameScore_UserID config) params in
  let params := AddNonZero "scrore" (SetGameScore_Score config) params in
  let params := AddBool "disable_edit_message" (SetGameScore_DisableEditMessage config) params in
  let params :=
    if decide (SetGameScore_InlineMessageID config ≠ "")
    then <["inline_message_id" := SetGameScore_InlineMessageID config]> params
    else
      let params := (AddFirstValid "chat_id"
                       [NumericID (SetGameScore_ChatID config);
                        Handle (SetGameScore_ChannelUsername config)] params).1 in
      AddNonZero "message_id" (SetGameScore_MessageID config) params in
  (params, None).

Section Descriptors.

(** Types declared outside [configs.go], with their JSON encoders: the
    reply markup of a message, the inline keyboard of an edit and a
    message entity. *)
Variables ReplyMarkup InlineKeyboardMarkup MessageEntity : Type.
Variable json_Marshal_keyboard : InlineKeyboardMarkup → string + error.
Variable json_Marshal_media : interface → string + error.

Record BaseChat : Type := mkBaseChat {
  BaseChat_ChatID : Z;
  BaseChat_ChannelUsername : string;
  BaseChat_ProtectContent : bool;
  BaseChat_ReplyToMessageID : Z;
  BaseChat_ReplyMarkup : option ReplyMarkup;
  BaseChat_DisableNotification : bool;
  BaseChat_AllowSendingWithoutReply : bool
}.

Record BaseFile : Type := mkBaseFile {
  BaseFile_BaseChat : BaseChat;
  BaseFile_File : RequestFileData
}.

Record PhotoConfig : Type := mkPhotoConfig {
  PhotoConfig_BaseFile : BaseFile;
  PhotoConfig_Thumb : option RequestFileData;
  PhotoConfig_Caption : string;
  PhotoConfig_ParseMode : string;
  PhotoConfig_CaptionEntities : list MessageEntity
}.

Definition PhotoConfig_files (config : PhotoConfig) : list RequestFile :=
  let files := [mkRequestFile "photo" (BaseFile_File (PhotoConfig_BaseFile config))] in
  let files := match PhotoConfig_Thumb config with
               | Some thumb => files ++ [mkRequestFile "thumb" thumb]
               | None => files
               end in
  files.

(** [URL] is the string form of the [*url.URL], nil when absent. *)
Record WebhookConfig : Type := mkWebhookConfig {
  Webhook_URL : option string;
  Webhook_Certificate : option RequestFileData;
  Webhook_IPAddress : string;
  Webhook_MaxConnections : Z;
  Webhook_AllowedUpdates : list string;
  Webhook_DropPendingUpdates : bool
}.

Definition WebhookConfig_files (config : WebhookConfig) : list RequestFile :=
  match Webhook_Certificate config with
  | Some certificate => [mkRequestFile "certificate" certificate]
  | None => []
  end.

Record BaseEdit : Type := mkBaseEdit {
  BaseEdit_ChatID : Z;
  BaseEdit_ChannelUsername : string;
  BaseEdit_MessageID : Z;
  BaseEdit_InlineMessageID : string;
  BaseEdit_ReplyMarkup : option InlineKeyboardMarkup
}.

Definition BaseEdit_Params (edit : BaseEdit) : Params * option error :=
  let params : Params := ∅ in
  let params :=
    if decide (BaseEdit_InlineMessageID edit ≠ "")
    then <["inline_message_id" := BaseEdit_InlineMessageID edit]> params
    else
      let params := (AddFirstValid "chat_id"
                       [NumericID (BaseEdit_ChatID edit);
                        Handle (BaseEdit_ChannelUsername edit)] params).1 in
      AddNonZero "message_id" (BaseEdit_MessageID edit) params in
  AddInterface json_Marshal_keyboard "reply_markup" (BaseEdit_ReplyMarkup edit) params.

Record EditMessageMediaConfig : Type := mkEditMessageMediaConfig {
  EditMessageMedia_BaseEdit : BaseEdit;
  EditMessageMedia_Media : interface
}.

Definition EditMessageMediaConfig_Params (config : EditMessageMediaConfig)
    : Params * option error :=
  let '(params, err) := BaseEdit_Params (EditMessageMedia_BaseEdit config) in
  match err with
  | Some _ => (params, err)
  | None =>
      AddInterface json_Marshal_media "media"
        (prepareInputMediaParam (EditMessageMedia_Media config) 0%Z) params
  end.

Definition EditMessageMediaConfig_files (config : EditMessageMediaConfig)
    : list RequestFile :=
  prepareInputMediaFile (EditMessageMedia_Media config) 0%Z.

Record MediaGroupConfig : Type := mkMediaGroupConfig {
  MediaGroup_ChatID : Z;
  MediaGroup_ChannelUsername : string;
  MediaGroup_Media : list interface;
  MediaGroup_DisableNotification : bool;
  MediaGroup_ReplyToMessageID : Z
}.

Definition MediaGroupConfig_files (config : MediaGroupConfig) : list RequestFile :=
  prepareInputMediaForFiles (MediaGroup_Media config).

End Descriptors.

Arguments PhotoConfig_files {ReplyMarkup MessageEntity} config.
Arguments BaseEdit_Params {InlineKeyboardMarkup} json_Marshal_keyboard edit.
Arguments EditMessageMediaConfig_Params {InlineKeyboardMarkup}
  json_Marshal_keyboard json_Marshal_media config.
Arguments EditMessageMediaConfig_files {InlineKeyboardMarkup} config.

(** ** Vocabulary of the specification *)

(** The primary and the secondary file reference of a media item. *)
Definition media_of (m : MediaItem) : RequestFileData :=
  match m with
  | Photo p => Media (Photo_Base p)
  | Video v => Media (Video_Base v)
  | Audio a => Media (Audio_Base a)
  | Document d => Media (Document_Base d)
  end.

Definition thumb_of (m : MediaItem) : option RequestFileData :=
  match m with
  | Photo _ => None
  | Video v => Video_Thumb v
  | Audio a => Audio_Thumb a
  | Document d => Document_Thumb d
  end.

(** [with_refs d t m] is [m] with its media set to [d] and, for the
    variants that have one, its thumbnail set to [t]. *)
Definition with_refs (d : RequestFileData) (t : option RequestFileData)
    (m : MediaItem) : MediaItem :=
  match m with
  | Photo p => Photo (Photo_set_Media d p)
  | Video v => Video (Video_set_Thumb t (Video_set_Media d v))
  | Audio a => Audio (Audio_set_Thumb t (Audio_set_Media d a))
  | Document x => Document (Document_set_Thumb t (Document_set_Media d x))
  end.

(** [y] is [x] up to its media and thumbnail fields. *)
Definition same_metadata (x y : interface) : Prop :=
  match x, y with
  | Item a, Item b => b = with_refs (media_of b) (thumb_of b) a
  | Other a, Other b => a = b
  | _, _ => False
  end.

(** Some reference of the value needs upload. *)
Definition needs_rewrite (x : interface) : bool :=
  match x with
  | Item m => NeedsUpload (media_of m) || Thumb_NeedsUpload (thumb_of m)
  | Other _ => false
  end.

(** The attach tokens a value carries, media first. *)
Definition token_of (d : RequestFileData) : list string :=
  match d with
  | IsfileAttach fa => [fa]
  | _ => []
  end.

Definition attach_tokens (x : interface) : list string :=
  match x with
  | Item m => token_of (media_of m) ++ from_option token_of [] (thumb_of m)
  | Other _ => []
  end.

(** The part name a token refers to: the token without ["attach://"]. *)
Definition token_suffix (token : string) : string :=
  String.substring 9 (String.length token - 9) token.

(** The single-item edit as the specification words it: the media-group
    algorithm run on the sequence of length 1, read at index 0. *)
Definition edit_as_group_of_one (m : interface) : option interface * list RequestFile :=
  (prepareInputMediaForParams [m] !! 0%nat, prepareInputMediaForFiles [m]).

(** The names of the parts of a plan, and the names its tokens refer to. *)
Definition part_names (files : list RequestFile) : list string :=
  RequestFile_Name <$> files.

Definition token_names (items : list interface) : list string :=
  token_suffix <$> concat (attach_tokens <$> items).

(** The invariant of an attachment plan: the part names are distinct, and
    the names the tokens refer to are the part names, each once. *)
Definition plan_consistent (plan : list interface * list RequestFile) : Prop :=
  NoDup (part_names plan.2) ∧ token_names plan.1 ≡ₚ part_names plan.2.

(** A part carries a reference that needs upload. *)
Definition part_needs_upload (f : RequestFile) : Prop :=
  NeedsUpload (RequestFile_Data f) = true.

(** Inputs used to evaluate the resolver: a video whose media and thumbnail
    are both in-memory files, and a video that is already hosted but whose
    thumbnail is an in-memory file. *)
Definition video_bytes : RequestFileData := IsFileBytes (mkFileBytes "clip.mp4" []).
Definition thumb_bytes : RequestFileData := IsFileBytes (mkFileBytes "clip.jpg" []).

Definition uploaded_video : interface :=
  Item (Video (mkInputMediaVideo
    (mkBaseInputMedia "video" video_bytes "a clip" "")
    (Some thumb_bytes) 640 480 12 false)).

Definition hosted_video : interface :=
  Item (Video (mkInputMediaVideo
    (mkBaseInputMedia "video" (IsFileID "AgADBAAD") "a clip" "")
    (Some thumb_bytes) 640 480 12 false)).

Definition uploaded_photo : interface :=
  Item (Photo (mkInputMediaPhoto
    (mkBaseInputMedia "photo" (IsFilePath "/tmp/cat.png") "a cat" "HTML"))).

(** A photo request whose file is already hosted. *)
Definition hosted_photo_config : PhotoConfig unit unit :=
  mkPhotoConfig unit unit
    (mkBaseFile unit (mkBaseChat unit 42 "" false 0 None false false) (IsFileID "AgADBAAD"))
    None "" "" [].

(** ** Further descriptors and vocabulary *)

Section ChatDescriptors.

(** The reply markup of a message is an [interface{}] declared outside
    [configs.go]; [json_Marshal_markup] is its JSON encoder. *)
Variable ReplyMarkup : Type.
Variable json_Marshal_markup : ReplyMarkup → string + error.

(** The result of [AddFirstValid] is discarded, as in the source: the error
    returned is that of [AddInterface]. *)
Definition BaseChat_Params (chat : BaseChat ReplyMarkup) : Params * option error :=
  let params : Params := ∅ in
  let params := (AddFirstValid "chat_id"
                   [NumericID (BaseChat_ChatID _ chat);
                    Handle (BaseChat_ChannelUsername _ chat)] params).1 in
  let params := AddNonZero "reply_to_message_id" (BaseChat_ReplyToMessageID _ chat) params in
  let params := AddBool "disable_notification" (BaseChat_DisableNotification _ chat) params in
  let params := AddBool "allow_sending_without_reply"
                  (BaseChat_AllowSendingWithoutReply _ chat) params in
  let params := AddBool "protect_content" (BaseChat_ProtectContent _ chat) params in
  AddInterface json_Marshal_markup "reply_markup" (BaseChat_ReplyMarkup _ chat) params.

Record ForwardConfig : Type := mkForwardConfig {
  Forward_BaseChat : BaseChat ReplyMarkup;
  Forward_FromChatID : Z;
  Forward_FromChannelUsername : string;
  Forward_MessageID : Z
}.

Definition ForwardConfig_Params (config : ForwardConfig) : Params * option error :=
  let '(params, err) := BaseChat_Params (Forward_BaseChat config) in
  match err with
  | Some _ => (params, err)
  | None =>
      let params := AddNonZero64 "from_chat_id" (Forward_FromChatID config) params in
      let params := AddNonZero "message_id" (Forward_MessageID config) params in
      (params, None)
  end.

Record GameConfig : Type := mkGameConfig {
  Game_BaseChat : BaseChat ReplyMarkup;
  Game_GameShortName : string
}.

(** No test of [err] here: the short name is written in every case. *)
Definition GameConfig_Params (config : GameConfig) : Params * option error :=
  let '(params, err) := BaseChat_Params (Game_BaseChat config) in
  let params := <["game_short_name" := Game_GameShortName config]> params in
  (params, err).

End ChatDescriptors.

Arguments BaseChat_Params {ReplyMarkup} json_Marshal_markup chat.
Arguments ForwardConfig_Params {ReplyMarkup} json_Marshal_markup config.
Arguments GameConfig_Params {ReplyMarkup} json_Marshal_markup config.

Record GetGameHighScoresConfig : Type := mkGetGameHighScoresConfig {
  GetGameHighScores_UserID : Z;
  GetGameHighScores_ChatID : Z;
  GetGameHighScores_ChannelUsername : string;
  GetGameHighScores_MessageID : Z;
  GetGameHighScores_InlineMessageID : string
}.

Definition GetGameHighScoresConfig_Params (config : GetGameHighScoresConfig)
    : Params * option error :=
  let params : Params := ∅ in
  let params := AddNonZero64 "user_id" (GetGameHighScores_UserID config) params in
  let params :=
    if decide (GetGameHighScores_InlineMessageID config ≠ "")
    then <["inline_message_id" := GetGameHighScores_InlineMessageID config]> params
    else
      let params := (AddFirstValid "chat_id"
                       [NumericID (GetGameHighScores_ChatID config);
                        Handle (GetGameHighScores_ChannelUsername config)] params).1 in
      AddNonZero "message_id" (GetGameHighScores_MessageID config) params in
  (params, None).

(** How a request names its chat: by numeric id when that is not zero,
    else by user name when that is not empty, else not at all. *)
Definition chat_address (ChatID : Z) (ChannelUsername : string) : option string :=
  if decide (ChatID = 0%Z)
  then (if decide (ChannelUsername = "") then None else Some ChannelUsername)
  else Some (Itoa ChatID).

(** The number of references of a value that need upload. *)
Definition uploads_of (x : interface) : nat :=
  match x with
  | Item m => Nat.b2n (NeedsUpload (media_of m)) + Nat.b2n (Thumb_NeedsUpload (thumb_of m))
  | Other _ => 0
  end.

(** The thumbnail of the value, if it has one, needs no upload. *)
Definition thumb_stays (x : interface) : Prop :=
  match x with
  | Item m => Thumb_NeedsUpload (thumb_of m) = false
  | Other _ => True
  end.

(** [SendData] returns on every reference of the value. *)
Definition sendable (x : interface) : Prop :=
  match x with
  | Item m =>
      panicked (SendData (media_of m)) = false
      ∧ from_option (λ t, panicked (SendData t)) false (thumb_of m) = false
  | Other _ => True
  end.

(** The character occurs in the string. *)
Fixpoint has_char (c : Ascii.ascii) (s : string) : bool :=
  match s with
  | EmptyString => false
  | String a s' => bool_decide (a = c) || has_char c s'
  end.

(** A sequence of two photos, the first read from a local path and the
    second already hosted. *)
Definition two_photos : list interface :=
  [uploaded_photo;
   Item (Photo (mkInputMediaPhoto
     (mkBaseInputMedia "photo" (IsFileID "AgADBAAD") "" "")))].

(** ** The other descriptors that carry files *)

Section FileDescriptors.

Variables ReplyMarkup MessageEntity : Type.

Record AudioConfig : Type := mkAudioConfig {
  AudioConfig_BaseFile : BaseFile ReplyMarkup;
  AudioConfig_Thumb : option RequestFileData;
  AudioConfig_Caption : string;
  AudioConfig_ParseMode : string;
  AudioConfig_CaptionEntities : list MessageEntity;
  AudioConfig_Duration : Z;
  AudioConfig_Performer : string;
  AudioConfig_Title : string
}.

Definition AudioConfig_files (config : AudioConfig) : list RequestFile :=
  let files := [mkRequestFile "audio" (BaseFile_File _ (AudioConfig_BaseFile config))] in
  let files := match AudioConfig_Thumb config with
               | Some thumb => files ++ [mkRequestFile "thumb" thumb]
               | None => files
               end in
  files.

Record DocumentConfig : Type := mkDocumentConfig {
  DocumentConfig_BaseFile : BaseFile ReplyMarkup;
  DocumentConfig_Thumb : option RequestFileData;
  DocumentConfig_Caption : string;
  DocumentConfig_ParseMode : string;
  DocumentConfig_CaptionEntities : list MessageEntity;
  DocumentConfig_DisableContentTypeDetection : bool
}.

Definition DocumentConfig_files (config : DocumentConfig) : list RequestFile :=
  let files := [mkRequestFile "document" (BaseFile_File _ (DocumentConfig_BaseFile config))] in
  let files := match DocumentConfig_Thumb config with
               | Some thumb => files ++ [mkRequestFile "thumb" thumb]
               | None => files
               end in
  files.

Record StickerConfig : Type := mkStickerConfig {
  StickerConfig_BaseFile : BaseFile ReplyMarkup
}.

Definition StickerConfig_files (config : StickerConfig) : list RequestFile :=
  [mkRequestFile "sticker" (BaseFile_File _ (StickerConfig_BaseFile config))].

Record VideoConfig : Type := mkVideoConfig {
  VideoConfig_BaseFile : BaseFile ReplyMarkup;
  VideoConfig_Thumb : option RequestFileData;
  VideoConfig_Duration : Z;
  VideoConfig_Caption : string;
  VideoConfig_ParseMode : string;
  VideoConfig_CaptionEntities : list MessageEntity;
  VideoConfig_SupportsStreaming : bool
}.

Definition VideoConfig_files (config : VideoConfig) : list RequestFile :=
  let files := [mkRequestFile "video" (BaseFile_File _ (VideoConfig_BaseFile config))] in
  let files := match VideoConfig_Thumb config with
               | Some thumb => files ++ [mkRequestFile "thumb" thumb]
               | None => files
               end in
  files.

Record AnimationConfig : Type := mkAnimationConfig {
  AnimationConfig_BaseFile : BaseFile ReplyMarkup;
  AnimationConfig_Duration : Z;
  AnimationConfig_Thumb : option RequestFileData;
  AnimationConfig_Caption : string;
  AnimationConfig_ParseMode : string;
  AnimationConfig_CaptionEntities : list MessageEntity
}.

Definition AnimationConfig_files (config : AnimationConfig) : list RequestFile :=
  let files := [mkRequestFile "animation" (BaseFile_File _ (AnimationConfig_BaseFile config))] in
  let files := match AnimationConfig_Thumb config with
               | Some thumb => files ++ [mkRequestFile "thumb" thumb]
               | None => files
               end in
  files.

Record VideoNoteConfig : Type := mkVideoNoteConfig {
  VideoNoteConfig_BaseFile : BaseFile ReplyMarkup;
  VideoNoteConfig_Thumb : option RequestFileData;
  VideoNoteConfig_Duration : Z;
  VideoNoteConfig_Length : Z
}.

Definition VideoNoteConfig_files (config : VideoNoteConfig) : list RequestFile :=
  let files := [mkRequestFile "video_note" (BaseFile_File _ (VideoNoteConfig_BaseFile config))] in
  let files := match VideoNoteConfig_Thumb config with
               | Some thumb => files ++ [mkRequestFile "thumb" thumb]
               | None => files
               end in
  files.

Record VoiceConfig : Type := mkVoiceConfig {
  VoiceConfig_BaseFile : BaseFile ReplyMarkup;
  VoiceConfig_Thumb : option RequestFileData;
  VoiceConfig_Caption : string;
  VoiceConfig_ParseMode : string;
  VoiceConfig_CaptionEntities : list MessageEntity;
  VoiceConfig_Duration : Z
}.

Definition VoiceConfig_files (config : VoiceConfig) : list RequestFile :=
  let files := [mkRequestFile "voice" (BaseFile_File _ (VoiceConfig_BaseFile config))] in
  let files := match VoiceConfig_Thumb config with
               | Some thumb => files ++ [mkRequestFile "thumb" thumb]
               | None => files
               end in
  files.

Record SetChatPhotoConfig : Type := mkSetChatPhotoConfig {
  SetChatPhotoConfig_BaseFile : BaseFile ReplyMarkup
}.

Definition SetChatPhotoConfig_files (config : SetChatPhotoConfig) : list RequestFile :=
  [mkRequestFile "photo" (BaseFile_File _ (SetChatPhotoConfig_BaseFile config))].

Record UploadStickerConfig : Type := mkUploadStickerConfig {
  UploadSticker_UserID : Z;
  UploadSticker_PNGSticker : RequestFileData
}.

Definition UploadStickerConfig_files (config : UploadStickerConfig) : list RequestFile :=
  [mkRequestFile "png_sticker" (UploadSticker_PNGSticker config)].

Record SetStickerSetThumbConfig : Type := mkSetStickerSetThumbConfig {
  SetStickerSetThumb_Name : string;
  SetStickerSetThumb_UserID : Z;
  SetStickerSetThumb_Thumb : RequestFileData
}.

Definition SetStickerSetThumbConfig_files (config : SetStickerSetThumbConfig)
    : list RequestFile :=
  [mkRequestFile "thumb" (SetStickerSetThumb_Thumb config)].

(** A descriptor whose [files] lists its own file references without
    resolving media: one of the twelve below. (The two sticker set
    descriptors, whose [files] chooses between two references, are not
    among them.) *)
Inductive PlainFileable : Type :=
  | IsPhotoConfig (config : PhotoConfig ReplyMarkup MessageEntity)
  | IsAudioConfig (config : AudioConfig)
  | IsDocumentConfig (config : DocumentConfig)
  | IsStickerConfig (config : StickerConfig)
  | IsVideoConfig (config : VideoConfig)
  | IsAnimationConfig (config : AnimationConfig)
  | IsVideoNoteConfig (config : VideoNoteConfig)
  | IsVoiceConfig (config : VoiceConfig)
  | IsWebhookConfig (config : WebhookConfig)
  | IsSetChatPhotoConfig (config : SetChatPhotoConfig)
  | IsUploadStickerConfig (config : UploadStickerConfig)
  | IsSetStickerSetThumbConfig (config : SetStickerSetThumbConfig).

(** Interface method dispatch of [Fileable.files]. *)
Definition files (c : PlainFileable) : list RequestFile :=
  match c with
  | IsPhotoConfig config => PhotoConfig_files config
  | IsAudioConfig config => AudioConfig_files config
  | IsDocumentConfig config => DocumentConfig_files config
  | IsStickerConfig config => StickerConfig_files config
  | IsVideoConfig config => VideoConfig_files config
  | IsAnimationConfig config => AnimationConfig_files config
  | IsVideoNoteConfig config => VideoNoteConfig_files config
  | IsVoiceConfig config => VoiceConfig_files config
  | IsWebhookConfig config => WebhookConfig_files config
  | IsSetChatPhotoConfig config => SetChatPhotoConfig_files config
  | IsUploadStickerConfig config => UploadStickerConfig_files config
  | IsSetStickerSetThumbConfig config => SetStickerSetThumbConfig_files config
  end.

(** The file references a descriptor was given: its file first, then its
    thumbnail when set; for a webhook, its certificate when set. *)
Definition own_references (c : PlainFileable) : list RequestFileData :=
  match c with
  | IsPhotoConfig config =>
      BaseFile_File _ (PhotoConfig_BaseFile _ _ config)
      :: option_list (PhotoConfig_Thumb _ _ config)
  | IsAudioConfig config =>
      BaseFile_File _ (AudioConfig_BaseFile config) :: option_list (AudioConfig_Thumb config)
  | IsDocumentConfig config =>
      BaseFile_File _ (DocumentConfig_BaseFile config)
      :: option_list (DocumentConfig_Thumb config)
  | IsStickerConfig config => [BaseFile_File _ (StickerConfig_BaseFile config)]
  | IsVideoConfig config =>
      BaseFile_File _ (VideoConfig_BaseFile config) :: option_list (VideoConfig_Thumb config)
  | IsAnimationConfig config =>
      BaseFile_File _ (AnimationConfig_BaseFile config)
      :: option_list (AnimationConfig_Thumb config)
  | IsVideoNoteConfig config =>
      BaseFile_File _ (VideoNoteConfig_BaseFile config)
      :: option_list (VideoNoteConfig_Thumb config)
  | IsVoiceConfig config =>
      BaseFile_File _ (VoiceConfig_BaseFile config) :: option_list (VoiceConfig_Thumb config)
  | IsWebhookConfig config => option_list (Webhook_Certificate config)
  | IsSetChatPhotoConfig config => [BaseFile_File _ (SetChatPhotoConfig_BaseFile config)]
  | IsUploadStickerConfig config => [UploadSticker_PNGSticker config]
  | IsSetStickerSetThumbConfig config => [SetStickerSetThumb_Thumb config]
  end.

End FileDescriptors.

Arguments files {ReplyMarkup MessageEntity} c.
Arguments own_references {ReplyMarkup MessageEntity} c.

(** ** The loops as positional maps *)

Lemma for_range_append_imap (F : interface → Z → list RequestFile) (l : list interface) :
  ∀ (k : nat) (acc : list RequestFile),
    for_range (λ idx media files, files ++ F media idx) (Z.of_nat k) l acc
    = acc ++ concat (imap (λ i x, F x (Z.of_nat (k + i))) l).
Proof.
  induction l as [|x l IH]; intros k acc; simpl.
  - by rewrite app_nil_r.
  - replace (Z.of_nat k + 1)%Z with (Z.of_nat (S k)) by lia.
    rewrite IH, <- app_assoc, Nat.add_0_r. do 3 f_equal.
    apply imap_ext. intros i y _. simpl. do 2 f_equal. lia.
Qed.

Lemma prepareInputMediaForFiles_imap (l : list interface) :
  prepareInputMediaForFiles l
  = concat (imap (λ i x, prepareInputMediaFile x (Z.of_nat i)) l).
Proof.
  unfold prepareInputMediaForFiles.
  change 0%Z with (Z.of_nat 0). by rewrite for_range_append_imap.
Qed.

Lemma for_range_overwrite_imap (P : interface → Z → option interface) (l : list interface) :
  ∀ pre : list interface,
    for_range (λ idx media newMedia,
        match P media idx with
        | Some param => <[Z.to_nat idx := param]> newMedia
        | None => newMedia
        end) (Z.of_nat (length pre)) l (pre ++ l)
    = pre ++ imap (λ i x, default x (P x (Z.of_nat (length pre + i)))) l.
Proof.
  induction l as [|x l IH]; intros pre; simpl; [done|].
  replace (Z.of_nat (length pre) + 1)%Z with (Z.of_nat (length (pre ++ [x]))).
  2:{ rewrite length_app. simpl. lia. }
  rewrite Nat.add_0_r.
  assert (Hstep : match P x (Z.of_nat (length pre)) with
                  | Some param => <[Z.to_nat (Z.of_nat (length pre)) := param]> (pre ++ x :: l)
                  | None => pre ++ x :: l
                  end
                  = (pre ++ [default x (P x (Z.of_nat (length pre)))]) ++ l).
  { rewrite Nat2Z.id, <- app_assoc. simpl.
    destruct (P x (Z.of_nat (length pre))) as [param|]; simpl; [|done].
    rewrite insert_app_r_alt by lia. by rewrite Nat.sub_diag. }
  rewrite Hstep.
  replace (length (pre ++ [x])) with (length (pre ++ [default x (P x (Z.of_nat (length pre)))]))
    by (rewrite !length_app; done).
  rewrite IH, <- app_assoc. simpl. do 2 f_equal.
  apply imap_ext. intros i y _. simpl. do 3 f_equal.
  rewrite length_app. simpl. lia.
Qed.

Lemma prepareInputMediaForParams_imap (l : list interface) :
  prepareInputMediaForParams l
  = imap (λ i x, default x (prepareInputMediaParam x (Z.of_nat i))) l.
Proof.
  unfold prepareInputMediaForParams.
  exact (for_range_overwrite_imap prepareInputMediaParam l []).
Qed.

Lemma prepareInputMediaForParams_lookup (l : list interface) (i : nat) :
  prepareInputMediaForParams l !! i
  = (λ x, default x (prepareInputMediaParam x (Z.of_nat i))) <$> l !! i.
Proof. by rewrite prepareInputMediaForParams_imap, list_lookup_imap. Qed.

Lemma prepareInputMediaForFiles_elem (l : list interface) (i : nat) (x : interface) (f : RequestFile) :
  l !! i = Some x → f ∈ prepareInputMediaFile x (Z.of_nat i) → f ∈ prepareInputMediaForFiles l.
Proof.
  intros Hl Hf. rewrite prepareInputMediaForFiles_imap.
  apply list_elem_of_In, in_concat.
  exists (prepareInputMediaFile x (Z.of_nat i)). split; [|by apply list_elem_of_In].
  apply list_elem_of_In, list_elem_of_lookup. exists i.
  by rewrite list_lookup_imap, Hl.
Qed.

(** The parts of the item at index [i] follow the parts of the items before
    it and precede the parts of the items after it. *)
Lemma prepareInputMediaForFiles_split (l : list interface) (i : nat) (x : interface) :
  l !! i = Some x →
  prepareInputMediaForFiles l
  = prepareInputMediaForFiles (take i l)
    ++ prepareInputMediaFile x (Z.of_nat i)
    ++ concat (imap (λ j y, prepareInputMediaFile y (Z.of_nat (S i + j))) (drop (S i) l)).
Proof.
  intros Hl. rewrite !prepareInputMediaForFiles_imap.
  rewrite <- (take_drop_middle l i x Hl) at 1.
  assert (Hlen : length (take i l) = i).
  { apply length_take_le. apply lookup_lt_Some in Hl. lia. }
  rewrite imap_app, concat_app. f_equal. simpl.
  rewrite Hlen, Nat.add_0_r. do 2 f_equal.
  apply imap_ext. intros j y _. simpl. do 2 f_equal. lia.
Qed.

(** ** One item: what the two type switches compute *)

Ltac split_item m :=
  destruct m as [[[]]|[[] ? ? ? ? ?]|[[] ? ? ? ?]|[[] ? ?]]; simpl in *.

Lemma prepareInputMediaParam_item (m : MediaItem) (idx : Z) :
  prepareInputMediaParam (Item m) idx
  = Some (Item (with_refs
      (if NeedsUpload (media_of m)
       then IsfileAttach ("attach://file-" +:+ Itoa idx) else media_of m)
      (if Thumb_NeedsUpload (thumb_of m)
       then Some (IsfileAttach ("attach://file-" +:+ Itoa idx +:+ "-thumb"))
       else thumb_of m)
      m)).
Proof.
  split_item m;
    repeat match goal with
           | |- context [NeedsUpload ?d] => destruct (NeedsUpload d); simpl
           | |- context [Thumb_NeedsUpload ?t] => destruct (Thumb_NeedsUpload t); simpl
           end; reflexivity.
Qed.

Lemma prepareInputMediaFile_item (m : MediaItem) (idx : Z) :
  prepareInputMediaFile (Item m) idx
  = (if NeedsUpload (media_of m)
     then [mkRequestFile ("file-" +:+ Itoa idx) (media_of m)] else [])
    ++ match thumb_of m with
       | Some thumb =>
           if NeedsUpload thumb
           then [mkRequestFile ("file-" +:+ Itoa idx) thumb] else []
       | None => []
       end.
Proof.
  split_item m;
    repeat match goal with
           | |- context [NeedsUpload ?d] => destruct (NeedsUpload d); simpl
           | |- context [match ?t with Some _ => _ | None => _ end] => destruct t; simpl
           end; reflexivity.
Qed.

Lemma media_of_with_refs d t m : media_of (with_refs d t m) = d.
Proof. by split_item m. Qed.

Lemma with_refs_own m : with_refs (media_of m) (thumb_of m) m = m.
Proof. by split_item m. Qed.

Lemma same_metadata_with_refs d t m : same_metadata (Item m) (Item (with_refs d t m)).
Proof. by split_item m. Qed.

Lemma prepareInputMediaFile_NeedsUpload (x : interface) (idx : Z) :
  Forall part_needs_upload (prepareInputMediaFile x idx).
Proof.
  destruct x as [m|]; [|by constructor].
  rewrite prepareInputMediaFile_item. apply Forall_app. split.
  - destruct (NeedsUpload (media_of m)) eqn:E; repeat constructor. done.
  - destruct (thumb_of m) as [t|]; [|by constructor].
    destruct (NeedsUpload t) eqn:E; repeat constructor. done.
Qed.

Lemma prepareInputMediaForFiles_NeedsUpload (l : list interface) :
  Forall part_needs_upload (prepareInputMediaForFiles l).
Proof.
  rewrite prepareInputMediaForFiles_imap. apply Forall_concat, Forall_forall.
  intros fs Hfs. apply list_elem_of_lookup in Hfs as [i Hi].
  rewrite list_lookup_imap in Hi.
  destruct (l !! i) as [x|]; simplify_eq/=.
  apply prepareInputMediaFile_NeedsUpload.
Qed.

Lemma Forall2_imap_r {A B : Type} (R : A → B → Prop) (l : list A) :
  ∀ f : nat → A → B, (∀ i x, R x (f i x)) → Forall2 R l (imap f l).
Proof.
  induction l as [|x l IH]; intros f Hf; simpl; constructor; [apply Hf|].
  apply IH. intros i y. apply Hf.
Qed.

(** ** The parameter map: writes to other keys *)

Lemma AddNonZero_lookup_ne key value (p : Params) k :
  key ≠ k → AddNonZero key value p !! k = p !! k.
Proof. intros. unfold AddNonZero. case_decide; by simplify_map_eq. Qed.

Lemma AddNonZero64_lookup_ne key value (p : Params) k :
  key ≠ k → AddNonZero64 key value p !! k = p !! k.
Proof. intros. unfold AddNonZero64. case_decide; by simplify_map_eq. Qed.

Lemma AddBool_lookup_ne key value (p : Params) k :
  key ≠ k → AddBool key value p !! k = p !! k.
Proof. intros. unfold AddBool. destruct value; by simplify_map_eq. Qed.

Lemma AddFirstValid_lookup_ne key args (p : Params) k :
  key ≠ k → (AddFirstValid key args p).1 !! k = p !! k.
Proof.
  intros. induction args as [|[n|s] args IH]; simpl; [done|..];
    case_decide; by simplify_map_eq.
Qed.

Lemma AddNonZero_lookup key value (p : Params) :
  AddNonZero key value p !! key
  = if decide (value = 0%Z) then p !! key else Some (Itoa value).
Proof. unfold AddNonZero. case_decide; by simplify_map_eq. Qed.

(** ** File references *)

(** C5: for each of the six file reference variants exactly one accessor is
    valid, the one selected by [NeedsUpload]: [SendData] panics exactly when
    the reference needs upload, [UploadData] panics exactly when it does
    not, and the accessor that matches [NeedsUpload] never panics. A valid
    [UploadData] returns normally; for a path that cannot be opened what it
    returns is an error value, not a panic. *)
Theorem C5_exactly_one_accessor_valid (d : RequestFileData) (w : OS) :
  panicked (SendData d) = NeedsUpload d
  ∧ panicked (UploadData d w).1 = negb (NeedsUpload d)
  ∧ (if NeedsUpload d then panicked (UploadData d w).1 else panicked (SendData d)) = false.
Proof.
  destruct d as [fb|fr|fp|fu|fi|fa]; simpl; try done.
  unfold FilePath_UploadData, os_Open. by destruct (os_files w !! _).
Qed.

(** C6: [UploadData] on a file path opens that path, once, when it is
    called: it returns the error of [os.Open] exactly when the path cannot
    be opened, and the name and handle of the opened file otherwise.
    [NeedsUpload] and [SendData] do not reach the file system (they take
    no [OS]). [SendData] on a URL or a file id returns the underlying
    string. *)
Theorem C6_path_opened_at_upload (fp : FilePath) (s : string) (w : OS) :
  UploadData (IsFilePath fp) w
  = (match os_files w !! fp with
     | Some content => Returns (fp, Some (os_File fp content), None)
     | None => Returns ("", None, Some (PathError "open" fp))
     end,
     mkOS (os_files w) (os_opened w ++ [fp]))
  ∧ NeedsUpload (IsFilePath fp) = true
  ∧ SendData (IsFileURL s) = Returns s
  ∧ SendData (IsFileID s) = Returns s.
Proof.
  repeat split. simpl. unfold FilePath_UploadData, os_Open.
  by destruct (os_files w !! _).
Qed.

(** ** The game score descriptor *)

(** C10: the parameters of a SetGameScoreConfig hold the score under the
    key "scrore", as its decimal string, exactly when the score is not zero,
    and never hold a key "score". *)
Theorem C10_score_written_as_scrore (config : SetGameScoreConfig) :
  (SetGameScoreConfig_Params config).1 !! "scrore"
  = (if decide (SetGameScore_Score config = 0%Z) then None
     else Some (Itoa (SetGameScore_Score config)))
  ∧ (SetGameScoreConfig_Params config).1 !! "score" = None.
Proof.
  unfold SetGameScoreConfig_Params. cbv zeta. cbn [fst]. split.
  - case_decide.
    + rewrite lookup_insert_ne by done.
      rewrite AddBool_lookup_ne, AddNonZero_lookup by done.
      rewrite AddNonZero64_lookup_ne by done. done.
    + rewrite AddNonZero_lookup_ne, AddFirstValid_lookup_ne by done.
      rewrite AddBool_lookup_ne, AddNonZero_lookup by done.
      rewrite AddNonZero64_lookup_ne by done. done.
  - case_decide.
    + rewrite lookup_insert_ne by done.
      rewrite AddBool_lookup_ne, AddNonZero_lookup_ne by done.
      rewrite AddNonZero64_lookup_ne by done. done.
    + rewrite AddNonZero_lookup_ne, AddFirstValid_lookup_ne by done.
      rewrite AddBool_lookup_ne, AddNonZero_lookup_ne by done.
      rewrite AddNonZero64_lookup_ne by done. done.
Qed.

(** ** The resolver *)

(** C3: when the media of the item at index [i] needs upload, the rewritten
    sequence holds at [i] a copy of the item whose media is the token
    "attach://file-{i}", and the file list holds the part named "file-{i}"
    with the original media as data, appended right after the parts of the
    items before [i]. A single photo needing upload resolves to one part, "file-0", and
    the token "attach://file-0". *)
Theorem C3_media_upload_token_and_part (l : list interface) (i : nat) (m : MediaItem) :
  l !! i = Some (Item m) →
  NeedsUpload (media_of m) = true →
  (∃ m', prepareInputMediaForParams l !! i = Some (Item m')
         ∧ prepareInputMediaParam (Item m) (Z.of_nat i) = Some (Item m')
         ∧ media_of m' = IsfileAttach ("attach://file-" +:+ Itoa (Z.of_nat i))
         ∧ same_metadata (Item m) (Item m'))
  ∧ (∃ rest, prepareInputMediaFile (Item m) (Z.of_nat i)
             = mkRequestFile ("file-" +:+ Itoa (Z.of_nat i)) (media_of m) :: rest)
  ∧ mkRequestFile ("file-" +:+ Itoa (Z.of_nat i)) (media_of m) ∈ prepareInputMediaForFiles l
  ∧ (∃ after, prepareInputMediaForFiles l
              = prepareInputMediaForFiles (take i l)
                ++ mkRequestFile ("file-" +:+ Itoa (Z.of_nat i)) (media_of m) :: after)
  ∧ (∀ p, l = [Item (Photo p)] →
       resolve l = ([Item (Photo (Photo_set_Media (IsfileAttach "attach://file-0") p))],
                    [mkRequestFile "file-0" (Media (Photo_Base p))])).
Proof.
  intros Hl Hup.
  assert (Hfile : ∃ rest, prepareInputMediaFile (Item m) (Z.of_nat i)
             = mkRequestFile ("file-" +:+ Itoa (Z.of_nat i)) (media_of m) :: rest).
  { rewrite prepareInputMediaFile_item, Hup. simpl. eauto. }
  split; [|split; [exact Hfile|split; [|split]]].
  - eexists. rewrite prepareInputMediaForParams_lookup, Hl.
    cbn -[prepareInputMediaParam].
    rewrite prepareInputMediaParam_item, Hup.
    split; [reflexivity|]. split; [reflexivity|].
    split; [apply media_of_with_refs|apply same_metadata_with_refs].
  - destruct Hfile as [rest Hrest].
    eapply prepareInputMediaForFiles_elem; [exact Hl|].
    rewrite Hrest. apply list_elem_of_here.
  - destruct Hfile as [rest Hrest].
    rewrite (prepareInputMediaForFiles_split l i _ Hl), Hrest. simpl. eauto.
  - intros p ->. destruct i as [|i]; [|done]. simplify_eq/=.
    unfold resolve, prepareInputMediaForParams, prepareInputMediaForFiles. simpl.
    by rewrite Hup.
Qed.

(** The theorem at a photo read from a local path, alone in its sequence. *)
Lemma C3_media_upload_token_and_part_witness :
  [uploaded_photo] !! 0%nat = Some uploaded_photo
  ∧ NeedsUpload (IsFilePath "/tmp/cat.png") = true
  ∧ resolve [uploaded_photo]
    = ([Item (Photo (mkInputMediaPhoto
          (mkBaseInputMedia "photo" (IsfileAttach "attach://file-0") "a cat" "HTML")))],
       [mkRequestFile "file-0" (IsFilePath "/tmp/cat.png")]).
Proof.
  split; [reflexivity|]. split; [reflexivity|].
  pose proof (C3_media_upload_token_and_part [uploaded_photo] 0
                (Photo (mkInputMediaPhoto
                   (mkBaseInputMedia "photo" (IsFilePath "/tmp/cat.png") "a cat" "HTML")))
                eq_refl eq_refl) as (_ & _ & _ & _ & H).
  exact (H _ eq_refl).
Defined.

(** C4: when the media of the item at index [i] does not need upload, the
    rewritten sequence holds at [i] a copy of the item with the same media
    (the same item when its thumbnail needs no upload either), no part of
    the file list carries that media reference, and [SendData] on it returns
    the id or URL string it was built from. *)
Theorem C4_hosted_media_copied_through (l : list interface) (i : nat) (m : MediaItem) :
  l !! i = Some (Item m) →
  NeedsUpload (media_of m) = false →
  (∃ m', prepareInputMediaForParams l !! i = Some (Item m')
         ∧ media_of m' = media_of m
         ∧ (Thumb_NeedsUpload (thumb_of m) = false → m' = m))
  ∧ Forall (λ f, RequestFile_Data f ≠ media_of m) (prepareInputMediaForFiles l)
  ∧ (Thumb_NeedsUpload (thumb_of m) = false →
       prepareInputMediaFile (Item m) (Z.of_nat i) = [])
  ∧ (∃ s, raw_string (media_of m) = Some s ∧ SendData (media_of m) = Returns s).
Proof.
  intros Hl Hno. split; [|split; [|split]].
  - eexists. rewrite prepareInputMediaForParams_lookup, Hl.
    cbn -[prepareInputMediaParam].
    rewrite prepareInputMediaParam_item, Hno.
    split; [reflexivity|]. split; [apply media_of_with_refs|].
    intros ->. apply with_refs_own.
  - eapply Forall_impl; [apply prepareInputMediaForFiles_NeedsUpload|].
    intros f Hf Heq. unfold part_needs_upload in Hf. rewrite Heq in Hf. congruence.
  - intros Hthumb. rewrite prepareInputMediaFile_item, Hno. simpl.
    destruct (thumb_of m) as [t|]; [|done]. simpl in Hthumb. by rewrite Hthumb.
  - destruct (media_of m) as [fb|fr|fp|fu|fi|fa]; simpl in *; try done; eauto.
Qed.

(** The theorem at a hosted video, alone in its sequence. *)
Lemma C4_hosted_media_copied_through_witness :
  [hosted_video] !! 0%nat = Some hosted_video
  ∧ NeedsUpload (IsFileID "AgADBAAD") = false
  ∧ ∃ m', prepareInputMediaForParams [hosted_video] !! 0%nat = Some (Item m')
          ∧ media_of m' = IsFileID "AgADBAAD".
Proof.
  split; [reflexivity|]. split; [reflexivity|].
  destruct (C4_hosted_media_copied_through [hosted_video] 0
              (Video (mkInputMediaVideo
                 (mkBaseInputMedia "video" (IsFileID "AgADBAAD") "a clip" "")
                 (Some thumb_bytes) 640 480 12 false))
              eq_refl eq_refl) as [(m' & H1 & H2 & _) _].
  exists m'. split; [exact H1|exact H2].
Defined.

(** C8: prepareInputMediaForParams returns a sequence of the same length in
    which the value at each position is the input value up to its media and
    thumbnail fields, and is the input value itself when none of its
    references needs upload. *)
Theorem C8_rewrite_keeps_length_order_metadata (l : list interface) :
  length (prepareInputMediaForParams l) = length l
  ∧ Forall2 (λ x y, same_metadata x y ∧ (needs_rewrite x = false → y = x))
      l (prepareInputMediaForParams l).
Proof.
  rewrite prepareInputMediaForParams_imap. split; [apply length_imap|].
  apply Forall2_imap_r. intros i [m|o]; [|done].
  rewrite prepareInputMediaParam_item. cbn -[with_refs]. split.
  - apply same_metadata_with_refs.
  - intros [-> ->]%orb_false_elim. f_equal. apply with_refs_own.
Qed.

(** C9: the single-item edit computes what the media-group algorithm
    computes on the sequence of length 1: the value it encodes under
    "media" is the element at index 0 of the rewritten sequence, and its
    files are the files of that sequence. *)
Theorem C9_single_edit_is_group_of_one {InlineKeyboardMarkup : Type}
    (json_Marshal_keyboard : InlineKeyboardMarkup → string + error)
    (json_Marshal_media : interface → string + error)
    (edit : BaseEdit InlineKeyboardMarkup) (m : MediaItem) :
  (prepareInputMediaParam (Item m) 0%Z, prepareInputMediaFile (Item m) 0%Z)
  = edit_as_group_of_one (Item m)
  ∧ EditMessageMediaConfig_files (mkEditMessageMediaConfig _ edit (Item m))
    = (edit_as_group_of_one (Item m)).2
  ∧ EditMessageMediaConfig_Params json_Marshal_keyboard json_Marshal_media
      (mkEditMessageMediaConfig _ edit (Item m))
    = (let '(params, err) := BaseEdit_Params json_Marshal_keyboard edit in
       match err with
       | Some _ => (params, err)
       | None =>
           AddInterface json_Marshal_media "media"
             (edit_as_group_of_one (Item m)).1 params
       end).
Proof.
  assert (Hgroup : edit_as_group_of_one (Item m)
                   = (prepareInputMediaParam (Item m) 0%Z, prepareInputMediaFile (Item m) 0%Z)).
  { unfold edit_as_group_of_one, prepareInputMediaForParams, prepareInputMediaForFiles.
    cbn -[prepareInputMediaParam prepareInputMediaFile].
    by rewrite prepareInputMediaParam_item. }
  rewrite Hgroup. done.
Qed.

(** C7, as the code has it: every part produced by media resolution, and so
    by the files of a media edit and of a media group, carries a reference
    that needs upload. The files of the twelve descriptors that list their
    own references (photo, audio, document, sticker, video, animation, video
    note, voice, webhook, chat photo, sticker upload, sticker set thumbnail)
    carry exactly the references the descriptor was given, in order and
    under distinct names, without a test: their parts need upload exactly
    when the references given do. *)
Theorem C7_resolver_parts_need_upload {ReplyMarkup InlineKeyboardMarkup MessageEntity : Type}
    (x : interface) (idx : Z) (l : list interface)
    (edit : EditMessageMediaConfig InlineKeyboardMarkup) (group : MediaGroupConfig)
    (photo : PhotoConfig ReplyMarkup MessageEntity) (hook : WebhookConfig)
    (c : PlainFileable ReplyMarkup MessageEntity) :
  Forall part_needs_upload (prepareInputMediaFile x idx)
  ∧ Forall part_needs_upload (prepareInputMediaForFiles l)
  ∧ Forall part_needs_upload (EditMessageMediaConfig_files edit)
  ∧ Forall part_needs_upload (MediaGroupConfig_files group)
  ∧ PhotoConfig_files photo
    = mkRequestFile "photo" (BaseFile_File _ (PhotoConfig_BaseFile _ _ photo))
      :: (mkRequestFile "thumb" <$> option_list (PhotoConfig_Thumb _ _ photo))
  ∧ WebhookConfig_files hook
    = (mkRequestFile "certificate" <$> option_list (Webhook_Certificate hook))
  ∧ RequestFile_Data <$> files c = own_references c
  ∧ (Forall part_needs_upload (files c)
     ↔ Forall (λ d, NeedsUpload d = true) (own_references c))
  ∧ NoDup (part_names (files c)).
Proof.
  assert (Hdata : RequestFile_Data <$> files c = own_references c).
  { unfold files, own_references, PhotoConfig_files, AudioConfig_files,
    DocumentConfig_files, StickerConfig_files, VideoConfig_files,
    AnimationConfig_files, VideoNoteConfig_files, VoiceConfig_files,
    WebhookConfig_files, SetChatPhotoConfig_files, UploadStickerConfig_files,
    SetStickerSetThumbConfig_files;
      destruct c as [c|c|c|c|c|c|c|c|c|c|c|c]; try done;
      match goal with
      | |- context [match ?t with Some _ => _ | None => _ end] => by destruct t
      end. }
  split; [apply prepareInputMediaFile_NeedsUpload|].
  split; [apply prepareInputMediaForFiles_NeedsUpload|].
  split; [apply prepareInputMediaFile_NeedsUpload|].
  split; [apply prepareInputMediaForFiles_NeedsUpload|].
  split; [unfold PhotoConfig_files; by destruct (PhotoConfig_Thumb _ _ photo)|].
  split; [unfold WebhookConfig_files; by destruct (Webhook_Certificate hook)|].
  split; [exact Hdata|]. split.
  - rewrite <- Hdata. unfold part_needs_upload. by rewrite Forall_fmap.
  - unfold files, own_references, PhotoConfig_files, AudioConfig_files,
    DocumentConfig_files, StickerConfig_files, VideoConfig_files,
    AnimationConfig_files, VideoNoteConfig_files, VoiceConfig_files,
    WebhookConfig_files, SetChatPhotoConfig_files, UploadStickerConfig_files,
    SetStickerSetThumbConfig_files, part_names;
      destruct c as [c|c|c|c|c|c|c|c|c|c|c|c];
      try match goal with
          | |- context [match ?t with Some _ => _ | None => _ end] => destruct t
          end;
      simpl; repeat constructor; rewrite ?not_elem_of_cons; repeat split;
      solve [discriminate | apply not_elem_of_nil].
Qed.

(** C7 fails for the files of a photo request: a photo that is already
    hosted is listed as a part although it needs no upload. *)
Lemma C7_hosted_photo_listed_as_part :
  ¬ Forall part_needs_upload (PhotoConfig_files hosted_photo_config).
Proof. intros H. by inversion H. Qed.

(** C1 on a video whose media and thumbnail both need upload: the two
    parts are both named "file-0", while the tokens refer to "file-0" and
    "file-0-thumb"; the plan is not consistent. *)
Theorem C1_thumbnail_part_takes_media_name :
  part_names (resolve [uploaded_video]).2 = ["file-0"; "file-0"]
  ∧ token_names (resolve [uploaded_video]).1 = ["file-0"; "file-0-thumb"]
  ∧ ¬ plan_consistent (resolve [uploaded_video]).
Proof.
  split; [reflexivity|]. split; [reflexivity|].
  intros [Hdup _]. change (NoDup ["file-0"; "file-0"]) in Hdup.
  apply NoDup_cons in Hdup as [Hin _]. apply Hin, list_elem_of_here.
Qed.

(** C2 on a hosted video whose thumbnail needs upload: the thumbnail is
    replaced by the token "attach://file-0-thumb", and the part that
    carries the original thumbnail is named "file-0". *)
Theorem C2_thumbnail_part_named_without_suffix :
  (thumb_of <$> (prepareInputMediaParam hosted_video 0%Z ≫= λ x,
                   match x with Item m => Some m | Other _ => None end))
  = Some (Some (IsfileAttach "attach://file-0-thumb"))
  ∧ prepareInputMediaFile hosted_video 0%Z = [mkRequestFile "file-0" thumb_bytes]
  ∧ "file-0-thumb" ∉ part_names (prepareInputMediaFile hosted_video 0%Z).
Proof.
  split; [reflexivity|]. split; [reflexivity|].
  intros Hin. change (("file-0-thumb" : string) ∈ ["file-0"]) in Hin.
  apply list_elem_of_singleton in Hin. discriminate.
Qed.

(** ** The resolver: what a rewritten sequence looks like *)

Lemma thumb_of_with_refs d t m :
  thumb_of (with_refs d t m) = match m with Photo _ => None | _ => t end.
Proof. by split_item m. Qed.

Lemma SendData_panicked (d : RequestFileData) : panicked (SendData d) = NeedsUpload d.
Proof. by destruct d. Qed.

Lemma needs_rewrite_sendable (x : interface) : needs_rewrite x = false → sendable x.
Proof.
  destruct x as [m|]; [|done]. simpl. intros [Hm Ht]%orb_false_elim.
  rewrite SendData_panicked. split; [done|].
  destruct (thumb_of m) as [t|]; [|done]. simpl in *. by rewrite SendData_panicked.
Qed.

Lemma rewritten_needs_no_rewrite (x : interface) (idx : Z) :
  needs_rewrite (default x (prepareInputMediaParam x idx)) = false.
Proof.
  destruct x as [m|]; [|done].
  rewrite prepareInputMediaParam_item. cbn -[with_refs].
  rewrite media_of_with_refs, thumb_of_with_refs. apply orb_false_intro.
  - by destruct (NeedsUpload (media_of m)) eqn:E.
  - destruct (Thumb_NeedsUpload (thumb_of m)) eqn:E; by destruct m.
Qed.

Lemma unchanged_without_rewrite (x : interface) (idx : Z) :
  needs_rewrite x = false →
  default x (prepareInputMediaParam x idx) = x ∧ prepareInputMediaFile x idx = [].
Proof.
  destruct x as [m|]; [|done]. simpl needs_rewrite. intros [Hm Ht]%orb_false_elim.
  rewrite prepareInputMediaParam_item, prepareInputMediaFile_item, Hm, Ht.
  cbn -[with_refs]. rewrite with_refs_own. split; [done|].
  destruct (thumb_of m) as [t|]; [|done]. simpl in Ht. by rewrite Ht.
Qed.

Lemma resolve_without_rewrite (l : list interface) :
  Forall (λ x, needs_rewrite x = false) l →
  prepareInputMediaForParams l = l ∧ prepareInputMediaForFiles l = [].
Proof.
  intros Hl. rewrite prepareInputMediaForParams_imap, prepareInputMediaForFiles_imap.
  split.
  - apply list_eq. intros i. rewrite list_lookup_imap.
    destruct (l !! i) as [x|] eqn:Hi; [|done]. simpl. f_equal.
    apply unchanged_without_rewrite. by eapply Forall_lookup_1 in Hl.
  - apply concat_nil_Forall, Forall_forall. intros fs Hfs.
    apply list_elem_of_lookup in Hfs as [i Hi]. rewrite list_lookup_imap in Hi.
    destruct (l !! i) as [x|] eqn:Hx; simplify_eq/=.
    apply unchanged_without_rewrite. by eapply Forall_lookup_1 in Hl.
Qed.

Lemma rewritten_all_need_no_rewrite (l : list interface) :
  Forall (λ y, needs_rewrite y = false) (prepareInputMediaForParams l).
Proof.
  rewrite prepareInputMediaForParams_imap. apply Forall_forall. intros y Hy.
  apply list_elem_of_lookup in Hy as [i Hi]. rewrite list_lookup_imap in Hi.
  destruct (l !! i) as [x|]; simplify_eq/=. apply rewritten_needs_no_rewrite.
Qed.

(** X1: in the sequence prepareInputMediaForParams returns, no media and no
    thumbnail needs upload any more, so [SendData], which the encoder of the
    "media" parameter calls, returns on every reference and never panics. *)
Theorem X1_rewritten_sequence_is_sendable (l : list interface) :
  Forall (λ y, needs_rewrite y = false ∧ sendable y) (prepareInputMediaForParams l).
Proof.
  eapply Forall_impl; [apply rewritten_all_need_no_rewrite|].
  intros y Hy. simpl in Hy. split; [done|]. by apply needs_rewrite_sendable.
Qed.

(** X2: resolving is idempotent: rewriting a rewritten sequence returns it
    unchanged and lists no file for it. *)
Theorem X2_resolving_twice_changes_nothing (l : list interface) :
  prepareInputMediaForParams (prepareInputMediaForParams l) = prepareInputMediaForParams l
  ∧ prepareInputMediaForFiles (prepareInputMediaForParams l) = [].
Proof. apply resolve_without_rewrite, rewritten_all_need_no_rewrite. Qed.

Lemma length_concat_imap {A B : Type} (g : A → nat) (l : list A) :
  ∀ f : nat → A → list B,
    (∀ i x, length (f i x) = g x) →
    length (concat (imap f l)) = sum_list (g <$> l).
Proof.
  induction l as [|x l IH]; intros f Hf; simpl; [done|].
  rewrite length_app, Hf. f_equal. apply IH. intros i y. apply Hf.
Qed.

Lemma prepareInputMediaFile_length (x : interface) (idx : Z) :
  length (prepareInputMediaFile x idx) = uploads_of x.
Proof.
  destruct x as [m|]; [|done]. rewrite prepareInputMediaFile_item, length_app. simpl.
  f_equal.
  - by destruct (NeedsUpload (media_of m)).
  - destruct (thumb_of m) as [t|]; [|done]. simpl. by destruct (NeedsUpload t).
Qed.

Lemma token_of_length_upload (d : RequestFileData) :
  NeedsUpload d = true → token_of d = [].
Proof. by destruct d. Qed.

Lemma rewritten_tokens_length (x : interface) (idx : Z) :
  length (attach_tokens (default x (prepareInputMediaParam x idx)))
  = length (attach_tokens x) + uploads_of x.
Proof.
  destruct x as [m|]; [|done].
  rewrite prepareInputMediaParam_item. cbn -[with_refs].
  rewrite media_of_with_refs, thumb_of_with_refs, !length_app.
  assert (Hmedia : length (token_of (if NeedsUpload (media_of m)
                     then IsfileAttach ("attach://file-" +:+ Itoa idx) else media_of m))
                   = length (token_of (media_of m)) + Nat.b2n (NeedsUpload (media_of m))).
  { destruct (NeedsUpload (media_of m)) eqn:E; simpl; [|lia].
    by rewrite token_of_length_upload. }
  rewrite Hmedia. destruct m as [p|v|a|d]; simpl thumb_of; simpl from_option.
  - simpl. lia.
  - destruct (Video_Thumb v) as [t|]; simpl; [|lia].
    destruct (NeedsUpload t) eqn:E; simpl; [rewrite (token_of_length_upload t) by done|];
      simpl; lia.
  - destruct (Audio_Thumb a) as [t|]; simpl; [|lia].
    destruct (NeedsUpload t) eqn:E; simpl; [rewrite (token_of_length_upload t) by done|];
      simpl; lia.
  - destruct (Document_Thumb d) as [t|]; simpl; [|lia].
    destruct (NeedsUpload t) eqn:E; simpl; [rewrite (token_of_length_upload t) by done|];
      simpl; lia.
Qed.

Lemma sum_list_fmap_add {A : Type} (f g : A → nat) (l : list A) :
  sum_list ((λ x, f x + g x) <$> l) = sum_list (f <$> l) + sum_list (g <$> l).
Proof. induction l as [|x l IH]; csimpl; [done|]. rewrite IH. lia. Qed.

Lemma length_concat_fmap {A B : Type} (f : A → list B) (l : list A) :
  length (concat (f <$> l)) = sum_list ((λ x, length (f x)) <$> l).
Proof. induction l as [|x l IH]; csimpl; [done|]. by rewrite length_app, IH. Qed.

Lemma sum_list_imap_ext {A B : Type} (g : B → nat) (h : A → nat) (l : list A) :
  ∀ f : nat → A → B,
    (∀ i x, g (f i x) = h x) →
    sum_list (g <$> imap f l) = sum_list (h <$> l).
Proof.
  induction l as [|x l IH]; intros f Hf; simpl; [done|].
  rewrite Hf. f_equal. apply IH. intros i y. apply Hf.
Qed.

(** X3: the file list has one part for each reference that needs upload (so
    at most two for an item), and the rewritten sequence carries exactly
    that many attach tokens more than the input. *)
Theorem X3_one_part_and_one_token_per_upload (l : list interface) :
  length (prepareInputMediaForFiles l) = sum_list (uploads_of <$> l)
  ∧ (length (prepareInputMediaForFiles l) ≤ 2 * length l)%nat
  ∧ length (concat (attach_tokens <$> prepareInputMediaForParams l))
    = length (concat (attach_tokens <$> l)) + length (prepareInputMediaForFiles l).
Proof.
  assert (Hlen : length (prepareInputMediaForFiles l) = sum_list (uploads_of <$> l)).
  { rewrite prepareInputMediaForFiles_imap. apply length_concat_imap.
    intros i x. apply prepareInputMediaFile_length. }
  split; [exact Hlen|]. split.
  - rewrite Hlen. clear Hlen. induction l as [|x l IH]; csimpl; [lia|].
    assert (uploads_of x ≤ 2)%nat; [|lia].
    destruct x as [m|]; simpl; [|lia].
    destruct (NeedsUpload _), (Thumb_NeedsUpload _); simpl; lia.
  - rewrite Hlen, !length_concat_fmap, prepareInputMediaForParams_imap.
    rewrite <- sum_list_fmap_add.
    apply (sum_list_imap_ext (λ y, length (attach_tokens y))).
    intros i x. apply rewritten_tokens_length.
Qed.

(** ** The resolver: names of parts and tokens *)

Lemma prepareInputMediaFile_origin (x : interface) (idx : Z) :
  Forall (λ f, ∃ m, x = Item m
                    ∧ RequestFile_Name f = "file-" +:+ Itoa idx
                    ∧ (RequestFile_Data f = media_of m
                       ∨ thumb_of m = Some (RequestFile_Data f)))
    (prepareInputMediaFile x idx).
Proof.
  destruct x as [m|]; [|by constructor].
  rewrite prepareInputMediaFile_item. apply Forall_app. split.
  - destruct (NeedsUpload (media_of m)); repeat constructor. exists m. auto.
  - destruct (thumb_of m) as [t|] eqn:Ht; [|by constructor].
    destruct (NeedsUpload t); repeat constructor. exists m. auto.
Qed.

(** X4: every part of the file list traces back to one item of the input:
    it is named "file-{i}" after the index [i] of that item and carries the
    media or the thumbnail of that item. *)
Theorem X4_every_part_comes_from_an_item (l : list interface) :
  Forall (λ f, ∃ (i : nat) (m : MediaItem),
                 l !! i = Some (Item m)
                 ∧ RequestFile_Name f = "file-" +:+ Itoa (Z.of_nat i)
                 ∧ (RequestFile_Data f = media_of m
                    ∨ thumb_of m = Some (RequestFile_Data f)))
    (prepareInputMediaForFiles l).
Proof.
  rewrite prepareInputMediaForFiles_imap. apply Forall_concat, Forall_forall.
  intros fs Hfs. apply list_elem_of_lookup in Hfs as [i Hi].
  rewrite list_lookup_imap in Hi.
  destruct (l !! i) as [x|] eqn:Hx; simplify_eq/=.
  eapply Forall_impl; [apply prepareInputMediaFile_origin|].
  intros f (m & -> & Hname & Hdata). eauto.
Qed.

Lemma substring_0_length (s : string) : String.substring 0 (String.length s) s = s.
Proof. induction s as [|a s IH]; simpl; [done|]. by rewrite IH. Qed.

Lemma token_suffix_attach (s : string) : token_suffix ("attach://" +:+ s) = s.
Proof.
  unfold token_suffix. simpl. change ("" +:+ s) with s.
  rewrite Nat.sub_0_r. apply substring_0_length.
Qed.

Lemma part_name_inj : Inj (=) (=) (λ i : nat, "file-" +:+ Itoa (Z.of_nat i)).
Proof.
  intros i j Hij. simplify_eq/=. unfold Itoa in *.
  by apply Nat2Z.inj, (inj pretty).
Qed.

Lemma fmap_concat_imap {A B C : Type} (h : B → C) (l : list A) :
  ∀ f : nat → A → list B,
    h <$> concat (imap f l) = concat (imap (λ i x, h <$> f i x) l).
Proof.
  induction l as [|x l IH]; intros f; csimpl; [done|].
  by rewrite fmap_app, IH.
Qed.

Lemma concat_fmap_imap {A B C : Type} (h : B → list C) (l : list A) :
  ∀ f : nat → A → B,
    concat (h <$> imap f l) = concat (imap (λ i x, h (f i x)) l).
Proof.
  induction l as [|x l IH]; intros f; csimpl; [done|]. by rewrite IH.
Qed.

Lemma concat_imap_sublist {A B : Type} (h : nat → B) (l : list A) :
  ∀ (f : nat → A → list B) (k : nat),
    (∀ i x, l !! i = Some x → f i x `sublist_of` [h (k + i)]) →
    concat (imap f l) `sublist_of` (h <$> seq k (length l)).
Proof.
  induction l as [|x l IH]; intros f k Hf; csimpl; [done|].
  apply (sublist_app _ [h k]).
  - specialize (Hf 0 x eq_refl). by rewrite Nat.add_0_r in Hf.
  - apply IH. intros i y Hy. simpl.
    replace (S (k + i)) with (k + S i) by lia. by apply Hf.
Qed.

Lemma plain_item_names (x : interface) (idx : Z) :
  thumb_stays x → attach_tokens x = [] →
  token_suffix <$> attach_tokens (default x (prepareInputMediaParam x idx))
  = part_names (prepareInputMediaFile x idx)
  ∧ part_names (prepareInputMediaFile x idx) `sublist_of` ["file-" +:+ Itoa idx].
Proof.
  destruct x as [m|]; [|split; [done|apply sublist_nil_l]].
  intros Hthumb Htok. simpl in Hthumb, Htok. apply app_eq_nil in Htok as [Hm Ht].
  rewrite prepareInputMediaParam_item, prepareInputMediaFile_item, Hthumb.
  cbn -[with_refs]. rewrite media_of_with_refs, thumb_of_with_refs.
  assert (Hparts : match thumb_of m with
                   | Some thumb =>
                       if NeedsUpload thumb
                       then [mkRequestFile ("file-" +:+ Itoa idx) thumb] else []
                   | None => []
                   end = []).
  { destruct (thumb_of m) as [t|]; [|done]. simpl in Hthumb. by rewrite Hthumb. }
  assert (Htokens : from_option token_of []
                      match m with Photo _ => None | _ => thumb_of m end = []).
  { by destruct m. }
  rewrite Hparts, Htokens, !app_nil_r.
  destruct (NeedsUpload (media_of m)).
  - split; [|done]. unfold part_names. simpl fmap.
    change ("attach://file-" +:+ Itoa idx) with ("attach://" +:+ ("file-" +:+ Itoa idx)).
    by rewrite token_suffix_attach.
  - rewrite Hm. split; [done|apply sublist_nil_l].
Qed.

(** X5: when no thumbnail of the sequence needs upload and the input
    carries no attach token, the plan is consistent: the part names are
    distinct, and the names the tokens of the rewritten sequence refer to
    are the part names, in the same order. This covers every sequence of
    photos. *)
Theorem X5_plan_consistent_without_thumbnail_uploads (l : list interface) :
  Forall thumb_stays l →
  Forall (λ x, attach_tokens x = []) l →
  token_names (prepareInputMediaForParams l) = part_names (prepareInputMediaForFiles l)
  ∧ NoDup (part_names (prepareInputMediaForFiles l))
  ∧ plan_consistent (resolve l).
Proof.
  intros Hthumb Htok.
  assert (Hitem : ∀ i x, l !! i = Some x →
            token_suffix <$> attach_tokens
              (default x (prepareInputMediaParam x (Z.of_nat i)))
            = part_names (prepareInputMediaFile x (Z.of_nat i))
            ∧ part_names (prepareInputMediaFile x (Z.of_nat i))
              `sublist_of` ["file-" +:+ Itoa (Z.of_nat i)]).
  { intros i x Hx. apply plain_item_names.
    - by eapply Forall_lookup_1 in Hthumb.
    - by eapply (Forall_lookup_1 _ _ _ _ Htok). }
  assert (Hparts : part_names (prepareInputMediaForFiles l)
            = concat (imap (λ i x, part_names (prepareInputMediaFile x (Z.of_nat i))) l)).
  { unfold part_names. by rewrite prepareInputMediaForFiles_imap, fmap_concat_imap. }
  assert (Heq : token_names (prepareInputMediaForParams l)
                = part_names (prepareInputMediaForFiles l)).
  { rewrite Hparts. unfold token_names.
    rewrite prepareInputMediaForParams_imap, concat_fmap_imap, fmap_concat_imap.
    f_equal. apply imap_ext. intros i x Hx. by apply Hitem. }
  assert (Hnodup : NoDup (part_names (prepareInputMediaForFiles l))).
  { rewrite Hparts.
    eapply sublist_NoDup;
      [|apply (concat_imap_sublist (λ i, "file-" +:+ Itoa (Z.of_nat i)) l _ 0)].
    - apply (NoDup_fmap_2 _), NoDup_seq.
    - intros i x Hx. by apply Hitem. }
  split; [exact Heq|]. split; [exact Hnodup|].
  split; [exact Hnodup|]. simpl. by rewrite Heq.
Qed.

(** The theorem at a local photo followed by a hosted photo. *)
Lemma X5_plan_consistent_without_thumbnail_uploads_witness :
  Forall thumb_stays two_photos
  ∧ Forall (λ x, attach_tokens x = []) two_photos
  ∧ plan_consistent (resolve two_photos).
Proof.
  assert (H1 : Forall thumb_stays two_photos) by (repeat constructor).
  assert (H2 : Forall (λ x, attach_tokens x = []) two_photos) by (repeat constructor).
  split; [exact H1|]. split; [exact H2|].
  exact (proj2 (proj2 (X5_plan_consistent_without_thumbnail_uploads two_photos H1 H2))).
Defined.

(** X6: the resolution of an item depends only on the item and its index:
    appending items to a sequence leaves the rewritten items and the parts
    of the earlier items as they were, the new parts coming after them. *)
Theorem X6_appending_keeps_earlier_resolution (l1 l2 : list interface) :
  take (length l1) (prepareInputMediaForParams (l1 ++ l2)) = prepareInputMediaForParams l1
  ∧ prepareInputMediaForFiles l1 `prefix_of` prepareInputMediaForFiles (l1 ++ l2).
Proof.
  rewrite !prepareInputMediaForParams_imap, !prepareInputMediaForFiles_imap, !imap_app.
  split.
  - apply take_app_length'. by rewrite length_imap.
  - rewrite concat_app. by eexists.
Qed.

(** X7: a value the type switches do not match (nil, a pointer to an item,
    any other type) is kept as it is by the group path and gives no part;
    on the single-item edit path it gives no part and no "media" parameter:
    the parameters are those of the base edit alone. *)
Theorem X7_unmatched_value_is_skipped {InlineKeyboardMarkup : Type}
    (json_Marshal_keyboard : InlineKeyboardMarkup → string + error)
    (json_Marshal_media : interface → string + error)
    (edit : BaseEdit InlineKeyboardMarkup) (v : string) (l1 l2 : list interface) :
  prepareInputMediaForParams (l1 ++ Other v :: l2) !! length l1 = Some (Other v)
  ∧ prepareInputMediaForFiles [Other v] = []
  ∧ EditMessageMediaConfig_files (mkEditMessageMediaConfig _ edit (Other v)) = []
  ∧ EditMessageMediaConfig_Params json_Marshal_keyboard json_Marshal_media
      (mkEditMessageMediaConfig _ edit (Other v))
    = BaseEdit_Params json_Marshal_keyboard edit.
Proof.
  split; [|split; [done|split; [done|]]].
  - rewrite prepareInputMediaForParams_lookup.
    by rewrite list_lookup_middle.
  - unfold EditMessageMediaConfig_Params. simpl.
    destruct (BaseEdit_Params json_Marshal_keyboard edit) as [params [err|]]; done.
Qed.

(** X8: the media token round trip. When the media of the item at index
    [i] needs upload, [SendData] on the media of the rewritten item returns
    a token, and the file list holds a part that is named by the suffix of
    that token after "attach://" and carries the original media. *)
Theorem X8_media_token_names_its_part (l : list interface) (i : nat) (m : MediaItem) :
  l !! i = Some (Item m) →
  NeedsUpload (media_of m) = true →
  ∃ m' token,
    prepareInputMediaForParams l !! i = Some (Item m')
    ∧ SendData (media_of m') = Returns token
    ∧ mkRequestFile (token_suffix token) (media_of m) ∈ prepareInputMediaForFiles l.
Proof.
  intros Hl Hup. eexists _, ("attach://" +:+ ("file-" +:+ Itoa (Z.of_nat i))).
  rewrite prepareInputMediaForParams_lookup, Hl. cbn -[prepareInputMediaParam].
  rewrite prepareInputMediaParam_item, Hup.
  split; [reflexivity|]. rewrite media_of_with_refs. split; [reflexivity|].
  rewrite token_suffix_attach.
  eapply prepareInputMediaForFiles_elem; [exact Hl|].
  rewrite prepareInputMediaFile_item, Hup. apply list_elem_of_here.
Qed.

(** The theorem at a photo read from a local path. *)
Lemma X8_media_token_names_its_part_witness :
  [uploaded_photo] !! 0%nat = Some uploaded_photo
  ∧ NeedsUpload (IsFilePath "/tmp/cat.png") = true
  ∧ ∃ m' token,
      prepareInputMediaForParams [uploaded_photo] !! 0%nat = Some (Item m')
      ∧ SendData (media_of m') = Returns token
      ∧ mkRequestFile (token_suffix token) (IsFilePath "/tmp/cat.png")
        ∈ prepareInputMediaForFiles [uploaded_photo].
Proof.
  split; [reflexivity|]. split; [reflexivity|].
  exact (X8_media_token_names_its_part [uploaded_photo] 0
           (Photo (mkInputMediaPhoto
              (mkBaseInputMedia "photo" (IsFilePath "/tmp/cat.png") "a cat" "HTML")))
           eq_refl eq_refl).
Defined.

(** ** Decimal strings hold no letter *)

Lemma has_char_app (c : Ascii.ascii) (s1 s2 : string) :
  has_char c (s1 +:+ s2) = has_char c s1 || has_char c s2.
Proof.
  induction s1 as [|a s1 IH]; [done|].
  change (String a s1 +:+ s2) with (String a (s1 +:+ s2)). simpl.
  by rewrite IH, orb_assoc.
Qed.

Lemma has_char_pretty_N_go (x : N) :
  ∀ s, has_char "t"%char (pretty_N_go x s) = has_char "t"%char s.
Proof.
  induction (N.lt_wf_0 x) as [x _ IH]; intros s.
  assert (x = 0 ∨ 0 < x)%N as [->|Hpos] by lia.
  - by rewrite pretty_N_go_0.
  - rewrite pretty_N_go_step by done. rewrite IH by (by apply N.div_lt).
    simpl. unfold pretty_N_char. by repeat case_match.
Qed.

Lemma has_char_pretty_N (x : N) : has_char "t"%char (pretty x) = false.
Proof.
  unfold pretty, pretty_N. case_decide; [done|]. by rewrite has_char_pretty_N_go.
Qed.

Lemma has_char_Itoa (z : Z) : has_char "t"%char (Itoa z) = false.
Proof.
  unfold Itoa, pretty, pretty_Z. destruct z as [|p|p]; [done|..].
  - apply has_char_pretty_N.
  - rewrite has_char_app. simpl. apply has_char_pretty_N.
Qed.

Lemma thumb_name_is_no_part_name (i j : Z) :
  ("file-" +:+ Itoa j) ≠ ("file-" +:+ Itoa i +:+ "-thumb").
Proof.
  intros Heq. simplify_eq/=.
  assert (Hchar : has_char "t"%char (Itoa j) = has_char "t"%char (Itoa i +:+ "-thumb"))
    by (by f_equal).
  rewrite has_char_app, !has_char_Itoa in Hchar. done.
Qed.

(** X9: the thumbnail token has no part. When the thumbnail of the item at
    index [i] needs upload, the rewritten item carries the token
    "attach://file-{i}-thumb", the original thumbnail is listed under the
    name "file-{i}", and no part of the file list is named
    "file-{i}-thumb". *)
Theorem X9_thumbnail_token_names_no_part (l : list interface) (i : nat)
    (m : MediaItem) (t : RequestFileData) :
  l !! i = Some (Item m) →
  thumb_of m = Some t →
  NeedsUpload t = true →
  ∃ m' token,
    prepareInputMediaForParams l !! i = Some (Item m')
    ∧ thumb_of m' = Some (IsfileAttach token)
    ∧ token_suffix token = ("file-" +:+ Itoa (Z.of_nat i) +:+ "-thumb")
    ∧ (token_suffix token ∉ part_names (prepareInputMediaForFiles l))
    ∧ mkRequestFile ("file-" +:+ Itoa (Z.of_nat i)) t ∈ prepareInputMediaForFiles l.
Proof.
  intros Hl Ht Hup.
  eexists _, ("attach://" +:+ ("file-" +:+ Itoa (Z.of_nat i) +:+ "-thumb")).
  rewrite prepareInputMediaForParams_lookup, Hl. cbn -[prepareInputMediaParam].
  rewrite prepareInputMediaParam_item, Ht. simpl Thumb_NeedsUpload. rewrite Hup.
  split; [reflexivity|]. rewrite thumb_of_with_refs, token_suffix_attach.
  split; [by destruct m|]. split; [done|]. split.
  - unfold part_names. rewrite prepareInputMediaForFiles_imap, fmap_concat_imap.
    intros Hin. apply list_elem_of_In, in_concat in Hin as (names & Hnames & Hin).
    apply list_elem_of_In, list_elem_of_lookup in Hnames as [j Hj].
    rewrite list_lookup_imap in Hj.
    destruct (l !! j) as [x|]; simplify_eq/=.
    apply list_elem_of_In, list_elem_of_fmap in Hin as (f & Hname & Hf).
    pose proof (prepareInputMediaFile_origin x (Z.of_nat j)) as Horigin.
    rewrite Forall_forall in Horigin.
    destruct (Horigin f Hf) as (m0 & _ & Hfile & _).
    rewrite Hfile in Hname. symmetry in Hname.
    by apply thumb_name_is_no_part_name in Hname.
  - eapply prepareInputMediaForFiles_elem; [exact Hl|].
    rewrite prepareInputMediaFile_item, Ht, Hup. apply elem_of_app. right.
    apply list_elem_of_here.
Qed.

(** The theorem at a hosted video whose thumbnail is an in-memory file. *)
Lemma X9_thumbnail_token_names_no_part_witness :
  [hosted_video] !! 0%nat = Some hosted_video
  ∧ NeedsUpload thumb_bytes = true
  ∧ ∃ m' token,
      prepareInputMediaForParams [hosted_video] !! 0%nat = Some (Item m')
      ∧ thumb_of m' = Some (IsfileAttach token)
      ∧ token_suffix token ∉ part_names (prepareInputMediaForFiles [hosted_video]).
Proof.
  split; [reflexivity|]. split; [reflexivity|].
  destruct (X9_thumbnail_token_names_no_part [hosted_video] 0
              (Video (mkInputMediaVideo
                 (mkBaseInputMedia "video" (IsFileID "AgADBAAD") "a clip" "")
                 (Some thumb_bytes) 640 480 12 false))
              thumb_bytes eq_refl eq_refl eq_refl)
    as (m' & token & H1 & H2 & _ & H3 & _).
  exists m', token. split; [exact H1|]. split; [exact H2|exact H3].
Defined.

(** ** Descriptors: how a request is addressed, and which error it returns *)

Lemma AddInterface_lookup_ne {A : Type} (marshal : A → string + error)
    key (value : option A) (p : Params) k :
  key ≠ k → (AddInterface marshal key value p).1 !! k = p !! k.
Proof.
  intros. unfold AddInterface. destruct value as [v|]; [|done].
  destruct (marshal v); simpl; [by rewrite lookup_insert_ne|done].
Qed.

Lemma AddFirstValid_chat_lookup key (id : Z) (name : string) (p : Params) :
  (AddFirstValid key [NumericID id; Handle name] p).1 !! key
  = match chat_address id name with Some a => Some a | None => p !! key end.
Proof.
  simpl. unfold chat_address. repeat case_decide; simpl; by simplify_map_eq.
Qed.

Lemma AddNonZero64_lookup key value (p : Params) :
  AddNonZero64 key value p !! key
  = if decide (value = 0%Z) then p !! key else Some (Itoa value).
Proof. unfold AddNonZero64. case_decide; by simplify_map_eq. Qed.

Lemma AddBool_lookup key value (p : Params) :
  AddBool key value p !! key = if value then Some "true" else p !! key.
Proof. unfold AddBool. destruct value; by simplify_map_eq. Qed.

Ltac skip_writes :=
  repeat first
    [ rewrite AddInterface_lookup_ne by done
    | rewrite AddNonZero_lookup_ne by done
    | rewrite AddNonZero64_lookup_ne by done
    | rewrite AddBool_lookup_ne by done
    | rewrite AddFirstValid_lookup_ne by done
    | rewrite lookup_insert_ne by done ].

(** X10: the parameters of a BaseChat name the chat by its numeric id when
    that is not zero, else by the channel user name when that is not empty,
    else not at all; the error returned is the error of encoding the reply
    markup and nothing else, so a chat with neither id nor user name and
    without reply markup gives parameters without "chat_id" and no error. *)
Theorem X10_chat_addressed_by_id_then_name {ReplyMarkup : Type}
    (json_Marshal_markup : ReplyMarkup → string + error) (chat : BaseChat ReplyMarkup) :
  (BaseChat_Params json_Marshal_markup chat).1 !! "chat_id"
  = chat_address (BaseChat_ChatID _ chat) (BaseChat_ChannelUsername _ chat)
  ∧ (BaseChat_Params json_Marshal_markup chat).1 !! "reply_to_message_id"
    = (if decide (BaseChat_ReplyToMessageID _ chat = 0%Z) then None
       else Some (Itoa (BaseChat_ReplyToMessageID _ chat)))
  ∧ (BaseChat_Params json_Marshal_markup chat).2
    = (BaseChat_ReplyMarkup _ chat ≫= λ v,
         match json_Marshal_markup v with inl _ => None | inr err => Some err end).
Proof.
  assert (Hid : (BaseChat_Params json_Marshal_markup chat).1 !! "chat_id"
            = chat_address (BaseChat_ChatID _ chat) (BaseChat_ChannelUsername _ chat)).
  { unfold BaseChat_Params. cbv zeta. skip_writes.
    rewrite AddFirstValid_chat_lookup. by destruct (chat_address _ _). }
  assert (Herr : (BaseChat_Params json_Marshal_markup chat).2
            = (BaseChat_ReplyMarkup _ chat ≫= λ v,
                 match json_Marshal_markup v with inl _ => None | inr err => Some err end)).
  { unfold BaseChat_Params, AddInterface. cbv zeta.
    destruct (BaseChat_ReplyMarkup _ chat) as [v|]; [|done]. simpl.
    by destruct (json_Marshal_markup v). }
  split; [exact Hid|]. split; [|exact Herr].
  unfold BaseChat_Params. cbv zeta. skip_writes.
  rewrite AddNonZero_lookup. skip_writes. by case_decide.
Qed.

(** X11: the parameters of a BaseEdit address the message either by its
    inline message id or by chat and message id, never by both: with a
    non-empty inline message id there is no "chat_id" and no "message_id",
    and without one there is no "inline_message_id". *)
Theorem X11_edit_addressed_inline_or_by_chat {InlineKeyboardMarkup : Type}
    (json_Marshal_keyboard : InlineKeyboardMarkup → string + error)
    (edit : BaseEdit InlineKeyboardMarkup) :
  (BaseEdit_Params json_Marshal_keyboard edit).1 !! "inline_message_id"
  = (if decide (BaseEdit_InlineMessageID _ edit = "") then None
     else Some (BaseEdit_InlineMessageID _ edit))
  ∧ (BaseEdit_Params json_Marshal_keyboard edit).1 !! "chat_id"
    = (if decide (BaseEdit_InlineMessageID _ edit = "")
       then chat_address (BaseEdit_ChatID _ edit) (BaseEdit_ChannelUsername _ edit)
       else None)
  ∧ (BaseEdit_Params json_Marshal_keyboard edit).1 !! "message_id"
    = (if decide (BaseEdit_InlineMessageID _ edit = "")
       then (if decide (BaseEdit_MessageID _ edit = 0%Z) then None
             else Some (Itoa (BaseEdit_MessageID _ edit)))
       else None).
Proof.
  unfold BaseEdit_Params. cbv zeta. repeat split; skip_writes.
  - repeat case_decide; try done; skip_writes; by simplify_map_eq.
  - repeat case_decide; try done; skip_writes.
    rewrite AddFirstValid_chat_lookup. by destruct (chat_address _ _).
  - repeat case_decide; try done; skip_writes;
      rewrite AddNonZero_lookup; skip_writes; by case_decide.
Qed.

(** X12: the two game descriptors address the message like an edit, inline
    or by chat and never by both, and write "user_id" exactly when the user
    id is not zero. *)
Theorem X12_game_addressed_inline_or_by_chat
    (score : SetGameScoreConfig) (high : GetGameHighScoresConfig) :
  ((SetGameScoreConfig_Params score).1 !! "inline_message_id"
   = (if decide (SetGameScore_InlineMessageID score = "") then None
      else Some (SetGameScore_InlineMessageID score))
   ∧ (SetGameScoreConfig_Params score).1 !! "chat_id"
     = (if decide (SetGameScore_InlineMessageID score = "")
        then chat_address (SetGameScore_ChatID score) (SetGameScore_ChannelUsername score)
        else None)
   ∧ (SetGameScoreConfig_Params score).1 !! "user_id"
     = (if decide (SetGameScore_UserID score = 0%Z) then None
        else Some (Itoa (SetGameScore_UserID score))))
  ∧ ((GetGameHighScoresConfig_Params high).1 !! "inline_message_id"
     = (if decide (GetGameHighScores_InlineMessageID high = "") then None
        else Some (GetGameHighScores_InlineMessageID high))
     ∧ (GetGameHighScoresConfig_Params high).1 !! "chat_id"
       = (if decide (GetGameHighScores_InlineMessageID high = "")
          then chat_address (GetGameHighScores_ChatID high)
                 (GetGameHighScores_ChannelUsername high)
          else None)
     ∧ (GetGameHighScoresConfig_Params high).1 !! "user_id"
       = (if decide (GetGameHighScores_UserID high = 0%Z) then None
          else Some (Itoa (GetGameHighScores_UserID high)))).
Proof.
  unfold SetGameScoreConfig_Params, GetGameHighScoresConfig_Params.
  cbv zeta. cbn [fst]. repeat split.
  - repeat case_decide; try done; skip_writes; by simplify_map_eq.
  - repeat case_decide; try done; skip_writes;
      first [ by simplify_map_eq
            | rewrite AddFirstValid_chat_lookup; skip_writes;
              destruct (chat_address _ _); by simplify_map_eq ].
  - case_decide; skip_writes; rewrite AddNonZero64_lookup; by case_decide.
  - repeat case_decide; try done; skip_writes; by simplify_map_eq.
  - repeat case_decide; try done; skip_writes;
      first [ by simplify_map_eq
            | rewrite AddFirstValid_chat_lookup; skip_writes;
              destruct (chat_address _ _); by simplify_map_eq ].
  - case_decide; skip_writes; rewrite AddNonZero64_lookup; by case_decide.
Qed.

Lemma BaseChat_Params_no_from_chat_id {ReplyMarkup : Type}
    (json_Marshal_markup : ReplyMarkup → string + error) (chat : BaseChat ReplyMarkup) :
  (BaseChat_Params json_Marshal_markup chat).1 !! "from_chat_id" = None.
Proof. unfold BaseChat_Params. cbv zeta. skip_writes. by simplify_map_eq. Qed.

(** X13: what a failed encoding of the reply markup does to the
    descriptors built on BaseChat. A ForwardConfig returns the error and
    stops: it writes "from_chat_id" only when there is no error and the
    source chat id is not zero (the source channel user name is never
    written). A GameConfig writes "game_short_name" in every case, error or
    not, empty or not, and passes the error on. *)
Theorem X13_forward_stops_and_game_continues_on_error {ReplyMarkup : Type}
    (json_Marshal_markup : ReplyMarkup → string + error)
    (forward : ForwardConfig ReplyMarkup) (game : GameConfig ReplyMarkup) :
  (ForwardConfig_Params json_Marshal_markup forward).2
  = (BaseChat_Params json_Marshal_markup (Forward_BaseChat _ forward)).2
  ∧ (ForwardConfig_Params json_Marshal_markup forward).1 !! "from_chat_id"
    = match (BaseChat_Params json_Marshal_markup (Forward_BaseChat _ forward)).2 with
      | Some _ => None
      | None =>
          if decide (Forward_FromChatID _ forward = 0%Z) then None
          else Some (Itoa (Forward_FromChatID _ forward))
      end
  ∧ (GameConfig_Params json_Marshal_markup game).2
    = (BaseChat_Params json_Marshal_markup (Game_BaseChat _ game)).2
  ∧ (GameConfig_Params json_Marshal_markup game).1 !! "game_short_name"
    = Some (Game_GameShortName _ game).
Proof.
  pose proof (BaseChat_Params_no_from_chat_id json_Marshal_markup
                (Forward_BaseChat _ forward)) as Hnone.
  unfold ForwardConfig_Params, GameConfig_Params.
  destruct (BaseChat_Params json_Marshal_markup (Forward_BaseChat _ forward))
    as [params [err|]];
    destruct (BaseChat_Params json_Marshal_markup (Game_BaseChat _ game))
      as [params' err']; simpl in *.
  - split; [done|]. split; [done|]. split; [done|]. by rewrite lookup_insert_eq.
  - split; [done|]. split; [|split; [done|by rewrite lookup_insert_eq]].
    skip_writes. rewrite AddNonZero64_lookup. by case_decide.
Qed.

Lemma UploadData_panicked (d : RequestFileData) (w : OS) :
  panicked (UploadData d w).1 = negb (NeedsUpload d).
Proof.
  destruct d as [fb|fr|fp|fu|fi|fa]; simpl; try done.
  unfold FilePath_UploadData, os_Open. by destruct (os_files w !! _).
Qed.

(** X14: every part of the file list can be uploaded: whatever the state of
    the file system, [UploadData] on the data of a part returns and does not
    panic (for a local path it may return the error of opening it). *)
Theorem X14_every_part_can_be_uploaded (l : list interface) (w : OS) :
  Forall (λ f, panicked (UploadData (RequestFile_Data f) w).1 = false)
    (prepareInputMediaForFiles l).
Proof.
  eapply Forall_impl; [apply prepareInputMediaForFiles_NeedsUpload|].
  intros f Hf. unfold part_needs_upload in Hf. simpl.
  by rewrite UploadData_panicked, Hf.
Qed.
